(** * OpenID Connect demo application: user store, session flow, error boundary

    A shallow embedding of [src/index.js] (the Express application) over the
    table created by [src/backups/migration.sql.bak].

    - [UserStore]: the [User] table with its two unique indexes and the Prisma
      operations the application calls ([upsert], [findUnique], [findMany]).
    - [App]: the request pipeline in continuation-passing style.  A JavaScript
      callback [err => ...] is a function [option Error -> Cont]; the
      observable behaviour of a request is the list of events it leaves in
      the server state.
    - [StoreSpec], [AppSpec]: the properties asked of the two, stated over
      those definitions.
    - [Config]: the values computed from the environment at start-up;
      [MoreSpec]: session resolution in one piece and the vocabulary of the
      further properties.
    - [StoreFacts], [AppFacts]: the proofs of the properties asked.
    - [StoreMore], [AppMore], [Journeys], [ConfigFacts]: further properties
      of the store, of each route from the router on, of requests from end
      to end and in sequence, and of the configuration. *)

From Stdlib Require Import ZArith Lia List Bool.
From stdpp Require Import base option list strings gmap sorting.

Local Open Scope Z_scope.
Local Open Scope string_scope.

(** ** Errors

    A JavaScript error object as the error boundary reads it: an optional
    numeric [status] and a [message]. *)
Record Error := mkError {
  status : option Z;
  message : string
}.

Global Instance Error_eq_dec : EqDecision Error.
Proof. solve_decision. Defined.

(** ** The user store *)
Module UserStore.

(** One row of table [User] (migration.sql.bak, lines 2-9).  The nullable
    columns are options; [createdAt] is a timestamp in milliseconds. *)
Record User := mkUser {
  id : Z;
  googleId : string;
  email : option string;
  name : option string;
  picture : option string;
  createdAt : Z
}.

Global Instance User_eq_dec : EqDecision User.
Proof. solve_decision. Defined.

(** The table together with SQLite's AUTOINCREMENT counter (the largest
    [id] ever handed out). *)
Record Db := mkDb {
  rows : list User;
  seq : Z
}.

Definition empty : Db := {| rows := []; seq := 0 |}.

(** The [create] argument of [upsert]: an absent ([undefined]) optional
    field is stored as NULL. *)
Record UserCreateInput := mkCreate {
  c_googleId : string;
  c_email : option string;
  c_name : option string;
  c_picture : option string
}.

(** The [update] argument of [upsert]: an absent ([undefined]) field leaves
    the column as it is. *)
Record UserUpdateInput := mkUpdate {
  u_googleId : option string;
  u_email : option string;
  u_name : option string;
  u_picture : option string
}.

(** Prisma's P2002, raised when a write would break a unique index. *)
Definition unique_violation (field : string) : Error :=
  {| status := None;
     message := "Unique constraint failed on the fields: (" ++ field ++ ")" |}.

Definition same_googleId (r x : User) : bool :=
  bool_decide (googleId x = googleId r).

(** Index [User_email_key]: NULLs never collide. *)
Definition same_email (r x : User) : bool :=
  match email r, email x with
  | Some a, Some b => bool_decide (a = b)
  | _, _ => false
  end.

(** The unique index that row [r] would break when written next to the
    rows [rs], if any ([User_googleId_key], [User_email_key]). *)
Definition violates (r : User) (rs : list User) : option string :=
  if existsb (same_googleId r) rs then Some "googleId"
  else if existsb (same_email r) rs then Some "email"
  else None.

Definition others (i : Z) (rs : list User) : list User :=
  List.filter (fun x => negb (bool_decide (id x = i))) rs.

Definition replace_row (r : User) (rs : list User) : list User :=
  List.map (fun x => if bool_decide (id x = id r) then r else x) rs.

Definition apply_update (u : UserUpdateInput) (r : User) : User :=
  {| id := id r;
     googleId := default (googleId r) (u_googleId u);
     email := match u_email u with Some e => Some e | None => email r end;
     name := match u_name u with Some n => Some n | None => name r end;
     picture := match u_picture u with Some p => Some p | None => picture r end;
     createdAt := createdAt r |}.

Definition new_row (c : UserCreateInput) (i now : Z) : User :=
  {| id := i;
     googleId := c_googleId c;
     email := c_email c;
     name := c_name c;
     picture := c_picture c;
     createdAt := now |}.

Definition find_by_googleId (g : string) (d : Db) : option User :=
  List.find (fun x => bool_decide (googleId x = g)) (rows d).

(** [prisma.user.upsert({ where: { googleId }, update, create })] at time
    [now]: the row found by [googleId] is updated, otherwise a row is
    inserted; a write that breaks a unique index is rejected and leaves
    the table as it was. *)
Definition upsert (where_googleId : string) (update : UserUpdateInput)
    (create : UserCreateInput) (now : Z) (d : Db) : Error + (User * Db) :=
  match find_by_googleId where_googleId d with
  | Some r =>
      let r' := apply_update update r in
      match violates r' (others (id r) (rows d)) with
      | Some f => inl (unique_violation f)
      | None => inr (r', {| rows := replace_row r' (rows d); seq := seq d |})
      end
  | None =>
      let r' := new_row create (seq d + 1) now in
      match violates r' (rows d) with
      | Some f => inl (unique_violation f)
      | None => inr (r', {| rows := rows d ++ [r']; seq := seq d + 1 |})
      end
  end.

(** [prisma.user.findUnique({ where: { id } })]: the row or [null]. *)
Definition findUnique (i : Z) (d : Db) : option User :=
  List.find (fun x => bool_decide (id x = i)) (rows d).

(** [prisma.user.findMany({ orderBy: { createdAt: 'desc' } })]. *)
Definition newer_first (a b : User) : Prop := createdAt b <= createdAt a.

Global Instance newer_first_dec a b : Decision (newer_first a b).
Proof. unfold newer_first. apply _. Defined.

Definition findMany (d : Db) : list User :=
  merge_sort newer_first (rows d).

(** The rows held for one external id. *)
Definition rows_of (g : string) (d : Db) : list User :=
  List.filter (fun x => bool_decide (googleId x = g)) (rows d).

End UserStore.

(** ** The Express application *)
Module App.
Import UserStore.

(** *** Configuration ([process.env]) *)
Record Env := mkEnv {
  NODE_ENV : option string;
  PORT : option string;
  BASE_URL : option string;
  GOOGLE_CLIENT_ID : option string;
  GOOGLE_CLIENT_SECRET : option string;
  SESSION_SECRET : option string;
  LOG_LEVEL : option string
}.

(** [process.env.X || fallback]: an unset or empty variable is falsy. *)
Definition env_or (v : option string) (fallback : string) : string :=
  match v with
  | Some x => if bool_decide (x = "") then fallback else x
  | None => fallback
  end.

Record CookieOptions := mkCookie {
  secure : bool;
  httpOnly : bool;
  maxAge : Z
}.

Record SessionOptions := mkSessionOptions {
  secret : string;
  resave : bool;
  saveUninitialized : bool;
  cookie : CookieOptions
}.

(** The argument of [session({...})] (index.js, lines 39-52). *)
Definition session_options (env : Env) : SessionOptions :=
  {| secret := env_or (SESSION_SECRET env) "set_the_code_on_fire_and_watch_it_burn";
     resave := false;
     saveUninitialized := false;
     cookie := {| secure := false;
                  httpOnly := true;
                  maxAge := 1000 * 60 * 60 * 24 |} |}.

(** The [Set-Cookie] header that carries a session id: express-session
    names it [connect.sid] and takes its attributes from the [cookie]
    option. *)
Record SetCookie := mkSetCookie {
  cookie_name : string;
  cookie_value : Z;
  cookie_attrs : CookieOptions
}.

Definition session_cookie (env : Env) (sid : Z) : SetCookie :=
  {| cookie_name := "connect.sid";
     cookie_value := sid;
     cookie_attrs := cookie (session_options env) |}.

(** *** Requests, responses, events *)

(** What the identity provider hands back to the Google strategy. *)
Record Profile := mkProfile {
  profile_id : string;
  emails : option (list string);
  displayName : option string;
  photos : option (list string)
}.

(** The outcome of the strategy's exchange with the provider for one
    request: no authorization code yet (the browser is sent to the
    provider), the handshake failed (the strategy calls [fail]), the
    exchange raised an error (the strategy calls [error]), or a profile was
    obtained and is passed to the verify callback. *)
Inductive Handshake :=
| Begin
| Failed
| Errored (e : Error)
| Granted (p : Profile).

Record Request := mkRequest {
  method : string;
  path : string;
  sid_cookie : option Z;        (* the session id of a validly signed cookie *)
  accepts_json : bool;          (* req.accepts('json') *)
  accepts_html : bool;          (* req.accepts('html') *)
  provider : Handshake
}.

Inductive Response :=
| Redirect (code : Z) (location : string)
| Render (code : Z) (view title : string) (msg : option string) (users : list User)
| Json (code : Z) (state msg : string)
| Plain (code : Z).

Inductive Level := INFO | WARN | ERROR | DEBUG | AUTH | ROUTE | SESSION.

(** What is stored under a session id: the principal reference
    [session.passport.user]. *)
Record Session := mkSession {
  passport_user : option Z
}.

Definition empty_session : Session := {| passport_user := None |}.

Inductive Event :=
| Log (lvl : Level) (msg : string)
| StoreSet (sid : Z) (data : Session)     (* write handed to the session store *)
| StoreAck (sid : Z) (data : Session)     (* the store acknowledged that write *)
| StoreNack (sid : Z) (e : Error)         (* the store reported that it failed *)
| StoreDestroy (sid : Z)
| Respond (r : Response).

(** *** Server state

    The persistent part ([db], [store], [next_sid]), the environment's
    choices for the calls to come ([clock], [db_faults], [store_faults]:
    one entry per call, [Some e] makes it fail with [e]), the request
    being served ([sessionID], [session], [user], [has_passport],
    [showDevLogin]) and its trace ([events], oldest first). *)
Record State := mkState {
  db : Db;
  clock : Z;
  db_faults : list (option Error);
  store : gmap Z Session;
  store_faults : list (option Error);
  next_sid : Z;
  sessionID : Z;
  session : Session;
  user : option User;
  has_passport : bool;
  showDevLogin : bool;
  events : list Event
}.

Definition set_db (x : Db) (s : State) : State :=
  mkState x (clock s) (db_faults s) (store s) (store_faults s) (next_sid s)
    (sessionID s) (session s) (user s) (has_passport s) (showDevLogin s) (events s).
Definition set_db_faults (x : list (option Error)) (s : State) : State :=
  mkState (db s) (clock s) x (store s) (store_faults s) (next_sid s)
    (sessionID s) (session s) (user s) (has_passport s) (showDevLogin s) (events s).
Definition set_store (x : gmap Z Session) (s : State) : State :=
  mkState (db s) (clock s) (db_faults s) x (store_faults s) (next_sid s)
    (sessionID s) (session s) (user s) (has_passport s) (showDevLogin s) (events s).
Definition set_store_faults (x : list (option Error)) (s : State) : State :=
  mkState (db s) (clock s) (db_faults s) (store s) x (next_sid s)
    (sessionID s) (session s) (user s) (has_passport s) (showDevLogin s) (events s).
Definition set_next_sid (x : Z) (s : State) : State :=
  mkState (db s) (clock s) (db_faults s) (store s) (store_faults s) x
    (sessionID s) (session s) (user s) (has_passport s) (showDevLogin s) (events s).
Definition set_sessionID (x : Z) (s : State) : State :=
  mkState (db s) (clock s) (db_faults s) (store s) (store_faults s) (next_sid s)
    x (session s) (user s) (has_passport s) (showDevLogin s) (events s).
Definition set_session (x : Session) (s : State) : State :=
  mkState (db s) (clock s) (db_faults s) (store s) (store_faults s) (next_sid s)
    (sessionID s) x (user s) (has_passport s) (showDevLogin s) (events s).
Definition set_user (x : option User) (s : State) : State :=
  mkState (db s) (clock s) (db_faults s) (store s) (store_faults s) (next_sid s)
    (sessionID s) (session s) x (has_passport s) (showDevLogin s) (events s).
Definition set_has_passport (x : bool) (s : State) : State :=
  mkState (db s) (clock s) (db_faults s) (store s) (store_faults s) (next_sid s)
    (sessionID s) (session s) (user s) x (showDevLogin s) (events s).
Definition set_showDevLogin (x : bool) (s : State) : State :=
  mkState (db s) (clock s) (db_faults s) (store s) (store_faults s) (next_sid s)
    (sessionID s) (session s) (user s) (has_passport s) x (events s).
Definition set_events (x : list Event) (s : State) : State :=
  mkState (db s) (clock s) (db_faults s) (store s) (store_faults s) (next_sid s)
    (sessionID s) (session s) (user s) (has_passport s) (showDevLogin s) x.

(** *** Continuations

    The rest of a request is a [Cont]; a Node-style callback [err => ...]
    is a [Callback]; an Express middleware [(req, res, next) => ...] is a
    [Middleware]. *)
Definition Cont := State -> State.
Definition Callback := option Error -> Cont.
Definition Middleware := Request -> Callback -> Cont.

Definition emit (e : Event) (s : State) : State :=
  set_events (events s ++ [e]) s.

Definition then_ (a : State -> State) (k : Cont) : Cont := fun s => k (a s).
Notation "a ;> k" := (then_ a k) (at level 65, right associativity).

Definition halt : Cont := fun s => s.

(** [log.<level>(msg, meta)] *)
Definition log (lvl : Level) (msg : string) : State -> State := emit (Log lvl msg).

(** [res.redirect(url)]: status 302. *)
Definition redirect (url : string) : Cont := emit (Respond (Redirect 302 url)).

(** [res.render(view, { title, ... })] under the current status. *)
Definition render (code : Z) (view title : string) (msg : option string)
    (users : list User) : Cont :=
  emit (Respond (Render code view title msg users)).

(** An awaited Prisma call inside [try]/[catch]: the environment may make
    it throw; otherwise the operation runs on the table. *)
Definition prisma {A} (op : Z -> Db -> Error + (A * Db)) (k : Error + A -> Cont) : Cont :=
  fun s =>
    let s' := set_db_faults (tail (db_faults s)) s in
    match head (db_faults s) with
    | Some (Some e) => k (inl e) s'
    | _ =>
        match op (clock s) (db s) with
        | inl e => k (inl e) s'
        | inr (a, d) => k (inr a) (set_db d s')
        end
    end.

(** *** Library contracts

    The application hands its callbacks to express-session and passport.
    They are modelled by the contract the callbacks rely on: when the
    callback runs and with what. *)

(** The session store answers one call: the next entry of [store_faults]. *)
Definition store_call (k : Callback) : Cont := fun s =>
  k (default None (head (store_faults s)))
    (set_store_faults (tail (store_faults s)) s).

(** The operations of the session store, on the map it keeps. *)
Definition store_get (sid : Z) (m : gmap Z Session) : option Session :=
  m !! sid.

Definition store_put (sid : Z) (data : Session) (m : gmap Z Session)
    : gmap Z Session :=
  <[sid := data]> m.

Definition store_remove (sid : Z) (m : gmap Z Session) : gmap Z Session :=
  delete sid m.

Definition update_store (f : gmap Z Session -> gmap Z Session) (s : State) : State :=
  set_store (f (store s)) s.

(** A fresh, empty session under a new id. *)
Definition generate (s : State) : State :=
  set_session empty_session
    (set_sessionID (next_sid s) (set_next_sid (next_sid s + 1) s)).

(** [req.session.save(cb)]: the session is handed to the store and [cb]
    runs with the store's answer. *)
Definition session_save (cb : Callback) : Cont := fun s =>
  let sid := sessionID s in
  let data := session s in
  (emit (StoreSet sid data) ;>
   store_call (fun r =>
     match r with
     | Some e => emit (StoreNack sid e) ;> cb (Some e)
     | None =>
         update_store (store_put sid data) ;>
         emit (StoreAck sid data) ;> cb None
     end)) s.

(** [req.session.regenerate(cb)]: the stored session is destroyed, a new
    one is generated, and [cb] runs with the store's answer. *)
Definition session_regenerate (cb : Callback) : Cont := fun s =>
  let sid := sessionID s in
  (emit (StoreDestroy sid) ;>
   store_call (fun r =>
     match r with
     | Some e => generate ;> cb (Some e)
     | None => update_store (store_remove sid) ;> generate ;> cb None
     end)) s.

(** [session(options)]: a cookie whose id the store knows loads that
    session; any other request gets a fresh one. *)
Definition session_middleware (opts : SessionOptions) : Middleware :=
  fun req next s =>
    match sid_cookie req with
    | Some sid =>
        match store_get sid (store s) with
        | Some data => next None (set_session data (set_sessionID sid s))
        | None => next None (generate s)
        end
    | None => next None (generate s)
    end.

(** [passport.initialize()] gives the request its [isAuthenticated],
    [login] and [logout]. *)
Definition passport_initialize : Middleware := fun req next =>
  set_has_passport true ;> next None.

(** [req.isAuthenticated()]: whether [req.user] is set. *)
Definition isAuthenticated (s : State) : bool :=
  match user s with Some _ => true | None => false end.

(** [passport.session()]: a principal reference in the session is handed
    to [deserializeUser]; an error is passed on, a missing user removes
    the reference and the request goes on without [req.user]. *)
Definition passport_session
    (deserialize : Z -> (Error + option User -> Cont) -> Cont) : Middleware :=
  fun req next s =>
    match passport_user (session s) with
    | Some su =>
        deserialize su (fun r =>
          match r with
          | inl e => next (Some e)
          | inr None => set_session empty_session ;> next None
          | inr (Some u) => set_user (Some u) ;> next None
          end) s
    | None => next None s
    end.

(** [req.login(user, cb)] (passport 0.6 and later, the releases whose
    [req.logout] takes the callback that [/logout] passes): the session is
    regenerated, the serialised user is put in it, the session is saved,
    and only then [cb] runs. *)
Definition req_login (serialize : User -> (Error + Z -> Cont) -> Cont)
    (u : User) (cb : Callback) : Cont :=
  set_user (Some u) ;>
  session_regenerate (fun err =>
    match err with
    | Some e => set_user None ;> cb (Some e)
    | None =>
        serialize u (fun r =>
          match r with
          | inl e => set_user None ;> cb (Some e)
          | inr ref =>
              set_session {| passport_user := Some ref |} ;>
              session_save (fun err =>
                match err with
                | Some e => set_user None ;> cb (Some e)
                | None => cb None
                end)
          end)
    end).

(** [req.logout(cb)]: the reference is removed, the session saved and
    then regenerated. *)
Definition req_logout (cb : Callback) : Cont :=
  set_user None ;>
  set_session empty_session ;>
  session_save (fun err =>
    match err with
    | Some e => cb (Some e)
    | None => session_regenerate cb
    end).

Record AuthenticateOptions := mkAuthenticateOptions {
  scope : list string;
  failureRedirect : option string
}.

Definition provider_authorization_url : string :=
  "https://accounts.google.com/o/oauth2/v2/auth".

(** [passport.authenticate('google', opts)]: by the strategy's outcome,
    the browser is sent to the provider, the failure is answered by a
    redirect to [failureRedirect] (401 without one), the error is passed
    on, or the verified user is logged in and the next handler runs. *)
Definition passport_authenticate
    (verify : Profile -> (Error + User -> Cont) -> Cont)
    (serialize : User -> (Error + Z -> Cont) -> Cont)
    (opts : AuthenticateOptions) : Middleware :=
  fun req next =>
    match provider req with
    | Begin => redirect provider_authorization_url
    | Failed =>
        match failureRedirect opts with
        | Some url => redirect url
        | None => emit (Respond (Plain 401))
        end
    | Errored e => next (Some e)
    | Granted p =>
        verify p (fun r =>
          match r with
          | inl e => next (Some e)
          | inr u =>
              req_login serialize u (fun err =>
                match err with
                | Some e => next (Some e)
                | None => next None
                end)
          end)
    end.

(** *** index.js *)

(** [xs && xs[0]?.value] *)
Definition first_value (xs : option (list string)) : option string :=
  match xs with
  | Some (x :: _) => Some x
  | _ => None
  end.

(** [userData] of the verify callback (lines 90-95). *)
Definition userData (profile : Profile) : UserCreateInput :=
  {| c_googleId := profile_id profile;
     c_email := first_value (emails profile);
     c_name := displayName profile;
     c_picture := first_value (photos profile) |}.

(** The [prisma.user.upsert] call of the verify callback (lines 100-108). *)
Definition upsert_google_user (data : UserCreateInput) (now : Z) (d : Db)
    : Error + (User * Db) :=
  upsert (c_googleId data)
    {| u_googleId := None;
       u_email := c_email data;
       u_name := c_name data;
       u_picture := c_picture data |}
    data now d.

(** The verify callback of the Google strategy (lines 85-119). *)
Definition verify (profile : Profile) (done : Error + User -> Cont) : Cont :=
  log AUTH "Received profile from Google" ;>
  log AUTH "Mapped Google profile to local user data" ;>
  prisma (upsert_google_user (userData profile)) (fun r =>
    match r with
    | inr u =>
        log AUTH "User stored in database (Prisma upsert)" ;>
        done (inr u)
    | inl err =>
        log ERROR "Failed to store user in database" ;>
        done (inl err)
    end).

(** [passport.serializeUser] (lines 124-127). *)
Definition serializeUser (u : User) (done : Error + Z -> Cont) : Cont :=
  log SESSION "Saving user reference into session" ;>
  done (inr (id u)).

(** [passport.deserializeUser] (lines 130-141). *)
Definition deserializeUser (i : Z) (done : Error + option User -> Cont) : Cont :=
  log SESSION "Loading user from session" ;>
  prisma (fun _ d => inr (findUnique i d, d)) (fun r =>
    match r with
    | inr u => done (inr u)
    | inl err =>
        log ERROR "Error loading user from database during deserializeUser" ;>
        done (inl err)
    end).

(** The session logging middleware (lines 55-64). *)
Definition session_logger : Middleware := fun req next =>
  log SESSION "New HTTP request" ;> next None.

(** The middleware that exposes [user] and [showDevLogin] to the views
    (lines 71-75). *)
Definition locals : Middleware := fun req next =>
  set_showDevLogin true ;> next None.

(** [ensureAuthenticated] (lines 144-165). *)
Definition ensureAuthenticated : Middleware := fun req next s =>
  let isAuth := has_passport s && isAuthenticated s in
  (log AUTH "Checking if user can access protected route" ;>
   if isAuth
   then log AUTH "Access granted to protected route" ;> next None
   else log WARN "Access denied, redirecting user to /login" ;>
        redirect "/login") s.

(** [GET /] (lines 168-176). *)
Definition home : Middleware := fun req next =>
  log ROUTE "Rendering home page (/) for user" ;>
  render 200 "index" "OpenID Connect Demo" None [].

(** [GET /login] (lines 179-187). *)
Definition login_page : Middleware := fun req next =>
  log ROUTE "Rendering login page (/login)" ;>
  render 200 "login" "Login" None [].

(** [GET /auth/google], first handler (lines 192-198). *)
Definition auth_google_start : Middleware := fun req next =>
  log ROUTE "Starting Google OpenID Connect flow" ;> next None.

(** [GET /auth/google/callback], first handler (lines 207-212). *)
Definition callback_start : Middleware := fun req next =>
  log ROUTE "User returned from Google, handling callback" ;> next None.

(** [GET /auth/google/callback], last handler (lines 214-233). *)
Definition callback_finish : Middleware := fun req next =>
  log AUTH "Google login succeeded, preparing to open session" ;>
  session_save (fun err =>
    match err with
    | Some e =>
        log ERROR "Failed to persist session after Google login" ;>
        next (Some e)
    | None =>
        log AUTH "Session saved, redirecting user to dashboard" ;>
        redirect "/dashboard"
    end).

(** [GET /dashboard], the handler behind the guard (lines 237-256). *)
Definition dashboard : Middleware := fun req next =>
  log ROUTE "Rendering protected dashboard" ;>
  prisma (fun _ d => inr (findMany d, d)) (fun r =>
    match r with
    | inr users => render 200 "dashboard" "Dashboard" None users
    | inl err =>
        log ERROR "Failed to load users for dashboard" ;>
        next (Some err)
    end).

(** [GET /logout] (lines 259-272). *)
Definition logout : Middleware := fun req next =>
  log ROUTE "User requested logout" ;>
  req_logout (fun err =>
    match err with
    | Some e => log ERROR "Error while logging user out" ;> next (Some e)
    | None =>
        log AUTH "User session closed successfully, redirecting to home" ;>
        redirect "/"
    end).

(** [testUser] of [GET /dev-login] (lines 277-282). *)
Definition testUser : UserCreateInput :=
  {| c_googleId := "dev-google-123";
     c_email := Some "dev@example.com";
     c_name := Some "Dev Tester";
     c_picture := Some "" |}.

(** The [prisma.user.upsert] call of [GET /dev-login] (lines 284-288):
    [update] is the whole of [testUser]. *)
Definition upsert_test_user (now : Z) (d : Db) : Error + (User * Db) :=
  upsert (c_googleId testUser)
    {| u_googleId := Some (c_googleId testUser);
       u_email := c_email testUser;
       u_name := c_name testUser;
       u_picture := c_picture testUser |}
    testUser now d.

(** [GET /dev-login] (lines 275-302). *)
Definition dev_login : Middleware := fun req next =>
  log ROUTE "Dev login endpoint called (/dev-login)" ;>
  prisma upsert_test_user (fun r =>
    match r with
    | inr u =>
        req_login serializeUser u (fun err =>
          match err with
          | Some e => next (Some e)
          | None =>
              log AUTH "Dev user logged in successfully" ;>
              redirect "/dashboard"
          end)
    | inl err =>
        log ERROR "Error during dev login" ;>
        next (Some err)
    end).

(** [err.status || 500]: an absent or zero status is falsy. *)
Definition status_or_500 (err : Error) : Z :=
  match status err with
  | Some n => if (n =? 0)%Z then 500 else n
  | None => 500
  end.

(** The message the error handler puts in a JSON body (line 315). *)
Definition json_message (err : Error) : string :=
  if (status_or_500 err =? 500)%Z then "Internal server error" else message err.

(** The message the error handler passes to the error view (line 322). *)
Definition page_message (err : Error) : string :=
  if (status_or_500 err =? 500)%Z then "Ocorreu um erro inesperado." else message err.

(** The global error handler (lines 305-324). *)
Definition error_handler (err : Error) : Middleware := fun req next =>
  log ERROR "Unhandled error while processing request" ;>
  if accepts_json req && negb (accepts_html req)
  then emit (Respond (Json (status_or_500 err) "error" (json_message err)))
  else render (status_or_500 err) "error" "Erro" (Some (page_message err)) [].

(** *** Routing *)

Record Route := mkRoute {
  route_method : string;
  route_path : string;
  handlers : list Middleware
}.

(** The routes in the order [app.get] registers them.  Nothing here reads
    the environment. *)
Definition routes : list Route :=
  [ mkRoute "GET" "/" [home];
    mkRoute "GET" "/login" [login_page];
    mkRoute "GET" "/auth/google"
      [auth_google_start;
       passport_authenticate verify serializeUser
         {| scope := ["openid"; "email"; "profile"]; failureRedirect := None |}];
    mkRoute "GET" "/auth/google/callback"
      [callback_start;
       passport_authenticate verify serializeUser
         {| scope := []; failureRedirect := Some "/login" |};
       callback_finish];
    mkRoute "GET" "/dashboard" [ensureAuthenticated; dashboard];
    mkRoute "GET" "/logout" [logout];
    mkRoute "GET" "/dev-login" [dev_login] ].

(** Handlers of one route, each reached by the [next()] of the one
    before; [next(err)] leaves the route. *)
Fixpoint chain (ms : list Middleware) : Middleware := fun req next =>
  match ms with
  | [] => next None
  | m :: rest =>
      m req (fun err =>
        match err with
        | Some e => next (Some e)
        | None => chain rest req next
        end)
  end.

Definition matches (r : Route) (req : Request) : bool :=
  bool_decide (route_method r = method req) && bool_decide (route_path r = path req).

Fixpoint router (rs : list Route) : Middleware := fun req next =>
  match rs with
  | [] => next None
  | r :: rest =>
      if matches r req
      then chain (handlers r) req (fun err =>
             match err with
             | Some e => next (Some e)
             | None => router rest req next
             end)
      else router rest req next
  end.

(** Express's last resort: 404 when nothing answered. *)
Definition not_found : Cont := emit (Respond (Plain 404)).

(** Where a request ends up after the routes: whatever was passed to
    [next(err)] goes to the error handler; a request nobody answered gets
    the 404. *)
Definition final (req : Request) : Callback := fun err =>
  match err with
  | Some e => error_handler e req (fun _ => halt)
  | None => not_found
  end.

(** The application: the [app.use] stack in order, then the routes, then
    the error handler. *)
Definition app (env : Env) (req : Request) : Cont :=
  chain
    [ session_middleware (session_options env);
      session_logger;
      passport_initialize;
      passport_session deserializeUser;
      locals;
      router routes ]
    req (final req).

(** A request starts with nothing attached to it and an empty trace. *)
Definition begin_request (s : State) : State :=
  set_events [] (set_showDevLogin false (set_has_passport false (set_user None s))).

Definition handle (env : Env) (req : Request) (s : State) : State :=
  app env req (begin_request s).

(** The responses in a trace. *)
Definition responses (evs : list Event) : list Response :=
  omap (fun e => match e with Respond r => Some r | _ => None end) evs.

Definition initial : State :=
  {| db := UserStore.empty; clock := 0; db_faults := []; store := ∅;
     store_faults := []; next_sid := 1; sessionID := 0;
     session := empty_session; user := None; has_passport := false;
     showDevLogin := false; events := [] |}.

End App.

(** ** Properties of the user store *)
Module StoreSpec.
Import UserStore App.
Local Open Scope list_scope.

(** The table's constraints: primary key, the two unique indexes, and the
    AUTOINCREMENT counter at or above every [id] in use. *)
Record wf (d : Db) : Prop := mk_wf {
  wf_id : NoDup (id <$> rows d);
  wf_googleId : NoDup (googleId <$> rows d);
  wf_email : NoDup (omap email (rows d));
  wf_seq : Forall (fun r => id r <= seq d) (rows d)
}.

(** No two rows hold the same non-null value in column [f]. *)
Definition unique_or_null (f : User -> option string) (d : Db) : Prop :=
  forall (i j : nat) (r1 r2 : User),
    rows d !! i = Some r1 -> rows d !! j = Some r2 ->
    is_Some (f r1) -> f r1 = f r2 -> i = j.

(** One [prisma.user.upsert] call with its arguments and the time it runs. *)
Record UpsertCall := mkCall {
  call_where : string;
  call_update : UserUpdateInput;
  call_create : UserCreateInput;
  call_time : Z
}.

(** A rejected upsert leaves the table as it was. *)
Definition run_call (c : UpsertCall) (d : Db) : Db :=
  match upsert (call_where c) (call_update c) (call_create c) (call_time c) d with
  | inr (_, d') => d'
  | inl _ => d
  end.

Definition run_calls (cs : list UpsertCall) (d : Db) : Db :=
  fold_left (fun acc c => run_call c acc) cs d.

(** The upsert a login with payload [p] performs (the verify callback's). *)
Definition login_call (p : UserCreateInput) (t : Z) : UpsertCall :=
  {| call_where := c_googleId p;
     call_update := {| u_googleId := None; u_email := c_email p;
                       u_name := c_name p; u_picture := c_picture p |};
     call_create := p;
     call_time := t |}.

(** Email [e] is not held by a row of an external id other than [k]. *)
Definition email_free (e : option string) (k : string) (d : Db) : Prop :=
  forall x v, x ∈ rows d -> googleId x <> k -> e = Some v -> email x <> Some v.

(** [a] where the payload gives a value, the stored value otherwise. *)
Definition refreshed (a old : option string) : option string :=
  match a with Some v => Some v | None => old end.

(** The second testable property of the specification, read literally:
    whatever the store and the two payloads for [k], both upserts go
    through, one row is left for [k], [id] and [createdAt] are those of the
    first upsert, and [email] and [name] are the second payload's. *)
Definition upsert_twice_as_specified : Prop :=
  forall (d : Db) (k : string) (e1 n1 p1 e2 n2 p2 : option string) (t1 t2 : Z),
    wf d ->
    exists u1 d1 u2 d2,
      upsert_google_user (mkCreate k e1 n1 p1) t1 d = inr (u1, d1) /\
      upsert_google_user (mkCreate k e2 n2 p2) t2 d1 = inr (u2, d2) /\
      rows_of k d2 = [u2] /\
      id u2 = id u1 /\ createdAt u2 = createdAt u1 /\
      email u2 = e2 /\ name u2 = n2.

(** The same restricted to the empty store. *)
Definition upsert_twice_as_specified_from_empty : Prop :=
  forall (k : string) (e1 n1 p1 e2 n2 p2 : option string) (t1 t2 : Z),
    exists u1 d1 u2 d2,
      upsert_google_user (mkCreate k e1 n1 p1) t1 UserStore.empty = inr (u1, d1) /\
      upsert_google_user (mkCreate k e2 n2 p2) t2 d1 = inr (u2, d2) /\
      rows_of k d2 = [u2] /\
      id u2 = id u1 /\ createdAt u2 = createdAt u1 /\
      email u2 = e2 /\ name u2 = n2.

(** The first testable property, read literally: upserting two distinct
    external ids, whatever their payloads, leaves two distinct rows with
    distinct ids. *)
Definition distinct_ids_as_specified : Prop :=
  forall (d : Db) (pa pb : UserCreateInput) (ta tb : Z),
    wf d -> c_googleId pa <> c_googleId pb ->
    exists ua d1 ub d2,
      upsert_google_user pa ta d = inr (ua, d1) /\
      upsert_google_user pb tb d1 = inr (ub, d2) /\
      ua ∈ rows d2 /\ ub ∈ rows d2 /\ ua <> ub /\ id ua <> id ub.

(** The data model's sentence on the profile columns, read literally. *)
Definition profile_columns_unique_as_specified : Prop :=
  forall cs : list UpsertCall,
    let d := run_calls cs UserStore.empty in
    unique_or_null email d /\ unique_or_null name d /\ unique_or_null picture d.

(** What a successful [upsert] did: it either rewrote the one row that
    held the key, in place, or appended a row under the next id. *)
Inductive upsert_outcome (w : string) (u : UserUpdateInput) (c : UserCreateInput)
    (now : Z) (d : Db) (r' : User) (d' : Db) : Prop :=
| Updated (l1 l2 : list User) (r : User) :
    rows d = l1 ++ r :: l2 -> googleId r = w ->
    r' = apply_update u r ->
    violates r' (l1 ++ l2) = None ->
    d' = {| rows := l1 ++ r' :: l2; seq := seq d |} ->
    upsert_outcome w u c now d r' d'
| Inserted :
    Forall (fun x => googleId x <> w) (rows d) ->
    r' = new_row c (seq d + 1) now ->
    violates r' (rows d) = None ->
    d' = {| rows := rows d ++ [r']; seq := seq d + 1 |} ->
    upsert_outcome w u c now d r' d'.

End StoreSpec.

(** ** Properties of the request pipeline *)
Module AppSpec.
Import UserStore App.
Local Open Scope list_scope.

(** The principal reference a request's cookie leads to, if any. *)
Definition principal (req : Request) (s : State) : option Z :=
  match sid_cookie req with
  | Some sid =>
      match store_get sid (store s) with
      | Some data => passport_user data
      | None => None
      end
  | None => None
  end.

(** The database answers its next call (it may answer "no row"). *)
Definition db_answers (s : State) : Prop :=
  match db_faults s with
  | Some _ :: _ => False
  | _ => True
  end.



(** Session writes handed to the store and not yet answered. *)
Fixpoint unanswered (evs : list Event) : Z :=
  match evs with
  | [] => 0
  | StoreSet _ _ :: rest => unanswered rest + 1
  | StoreAck _ _ :: rest => unanswered rest - 1
  | StoreNack _ _ :: rest => unanswered rest - 1
  | _ :: rest => unanswered rest
  end.

(** HTTP's classes of status codes. *)
Definition server_caused (code : Z) : bool := (500 <=? code)%Z && (code <? 600)%Z.

(** The error boundary's choice of message, read literally from the
    specification: the generic message exactly for server-caused faults. *)
Definition messages_as_specified : Prop :=
  forall err : Error,
    json_message err =
      (if server_caused (status_or_500 err) then "Internal server error" else message err) /\
    page_message err =
      (if server_caused (status_or_500 err) then "Ocorreu um erro inesperado." else message err).

(** Whether an event is traffic with the session store. *)
Definition touches_store (e : Event) : bool :=
  match e with
  | StoreSet _ _ | StoreAck _ _ | StoreNack _ _ | StoreDestroy _ => true
  | _ => false
  end.

(** Session resolution raises no fault: either no principal reference is
    looked up or the database answers the lookup. *)
Definition resolves (req : Request) (s : State) : Prop :=
  match principal req s with
  | None => True
  | Some _ => db_answers s
  end.

(** The callback [chain] hands to the router, as it unfolds. *)
Definition route_exit (req : Request) : Callback := fun err =>
  match err with
  | Some e => final req (Some e)
  | None => final req None
  end.

Definition production : Env :=
  {| NODE_ENV := Some "production"; PORT := Some "3000";
     BASE_URL := Some "https://app.example.com";
     GOOGLE_CLIENT_ID := Some "client"; GOOGLE_CLIENT_SECRET := Some "secret";
     SESSION_SECRET := Some "s3cret"; LOG_LEVEL := Some "info" |}.

Definition get (p : string) (c : option Z) (h : Handshake) : Request :=
  {| method := "GET"; path := p; sid_cookie := c;
     accepts_json := false; accepts_html := true; provider := h |}.

(** What is asked of the trace [pre] that precedes a redirect to the
    dashboard in a request that ends in state [S]: the write of the
    principal reference of the user now logged in, under the request's
    session id, has been acknowledged; no write is still unanswered; and
    the store holds that reference. *)
Definition established (S : State) (pre : list Event) : Prop :=
  exists u,
    user S = Some u /\
    StoreAck (sessionID S) {| passport_user := Some (id u) |} ∈ pre /\
    unanswered pre = 0 /\
    store_get (sessionID S) (store S) = Some {| passport_user := Some (id u) |}.

End AppSpec.

(** ** Configuration read at start-up *)
Module Config.
Import App.

(** [process.env.PORT || 3000], as the template string prints it
    (index.js, line 28). *)
Definition port (env : Env) : string := env_or (PORT env) "3000".

(** [s.replace(/\/$/, '')]: one slash at the very end is removed. *)
Fixpoint strip_trailing_slash (s : string) : string :=
  match s with
  | EmptyString => EmptyString
  | String c EmptyString => if bool_decide (s = "/") then EmptyString else s
  | String c rest => String c (strip_trailing_slash rest)
  end.

(** [BASE_URL] (index.js, lines 29-32). *)
Definition base_url (env : Env) : string :=
  strip_trailing_slash (env_or (BASE_URL env) ("http://localhost:" ++ port env)).

(** The [callbackURL] of the Google strategy (line 83), also logged when
    the handshake starts (line 195). *)
Definition callbackURL (env : Env) : string :=
  base_url env ++ "/auth/google/callback".

(** Whether the last character of [s] is a slash. *)
Fixpoint ends_with_slash (s : string) : bool :=
  match s with
  | EmptyString => false
  | String c EmptyString => bool_decide (s = "/")
  | String _ rest => ends_with_slash rest
  end.

End Config.

(** ** Further properties of the store and of the routes *)
Module MoreSpec.
Import UserStore App StoreSpec AppSpec.
Local Open Scope list_scope.

(** The answer of the error handler (index.js, lines 311-323) to fault
    [e] for the client of [req]. *)
Definition error_response (req : Request) (e : Error) : Response :=
  if accepts_json req && negb (accepts_html req)
  then Json (status_or_500 e) "error" (json_message e)
  else Render (status_or_500 e) "error" "Erro" (Some (page_message e)) [].

(** Another row holds the email of payload [p]. *)
Definition email_taken (p : UserCreateInput) (d : Db) : Prop :=
  exists x v, x ∈ rows d /\ googleId x <> c_googleId p /\
              c_email p = Some v /\ email x = Some v.

(** The state in which the router is entered: the middleware stack has
    attached passport and the view locals and left its lines in the
    trace. *)
Definition entry (d : Db) (c : Z) (fs : list (option Error)) (st : gmap Z Session)
    (sf : list (option Error)) (nsid sid : Z) (sess : Session) (u : option User)
    (tl : list Event) : State :=
  mkState d c fs st sf nsid sid sess u true true
    (Log SESSION "New HTTP request" :: tl).

(** A request that left table, session store and [req.user] as it found
    them and had no traffic with the session store. *)
Definition untouched (S s0 : State) : Prop :=
  db S = db s0 /\ store S = store s0 /\ user S = user s0 /\
  existsb touches_store (events S) = false.

(** Session resolution in one piece: what the middleware stack makes of
    the cookie.  Either the lookup of the principal reference faults and
    the fault goes to the error handler ([inl]), or the router is entered
    ([inr]): with the stored session and the user it names, with the stored
    session emptied when the user is gone, or with a fresh session. *)
Definition resolved (req : Request) (s : State) : Error * State + State :=
  let fresh :=
    entry (db s) (clock s) (db_faults s) (store s) (store_faults s)
      (next_sid s + 1) (next_sid s) empty_session None [] in
  match sid_cookie req with
  | Some sid =>
      match store_get sid (store s) with
      | Some data =>
          match passport_user data with
          | Some ref =>
              match db_faults s with
              | Some e :: rest =>
                  inl (e, mkState (db s) (clock s) rest (store s) (store_faults s)
                            (next_sid s) sid data None true false
                            [Log SESSION "New HTTP request";
                             Log SESSION "Loading user from session";
                             Log ERROR
                               "Error loading user from database during deserializeUser"])
              | fs =>
                  inr (entry (db s) (clock s) (tail fs) (store s) (store_faults s)
                         (next_sid s) sid
                         (match findUnique ref (db s) with
                          | Some _ => data
                          | None => empty_session
                          end)
                         (findUnique ref (db s))
                         [Log SESSION "Loading user from session"])
              end
          | None =>
              inr (entry (db s) (clock s) (db_faults s) (store s) (store_faults s)
                     (next_sid s) sid data None [])
          end
      | None => inr fresh
      end
  | None => inr fresh
  end.

(** The first failure among the three calls a provider login makes to the
    session store (destroy the old session, save the new one, save it
    again from the handler), if any. *)
Definition first_store_fault (sf : list (option Error)) : option Error :=
  match sf with
  | Some e :: _ => Some e
  | None :: Some e :: _ => Some e
  | None :: None :: Some e :: _ => Some e
  | _ => None
  end.

(** The paths the application registers. *)
Definition registered : list string :=
  ["/"; "/login"; "/auth/google"; "/auth/google/callback"; "/dashboard";
   "/logout"; "/dev-login"].

End MoreSpec.

(** ** Proofs: the user store *)
Module StoreFacts.
Import UserStore App StoreSpec.
Local Open Scope list_scope.

Lemma find_split {A} (p : A -> bool) (l : list A) (r : A) :
  List.find p l = Some r ->
  exists l1 l2, l = l1 ++ r :: l2 /\ p r = true /\ Forall (fun x => p x = false) l1.
Proof.
  induction l as [|a l IH]; simpl; [discriminate|].
  destruct (p a) eqn:Hp.
  - intros [= ->]. exists [], l. auto.
  - intros H. destruct (IH H) as (l1 & l2 & -> & Hr & Hl1).
    exists (a :: l1), l2. auto.
Qed.

Lemma find_none_all {A} (p : A -> bool) (l : list A) :
  List.find p l = None -> Forall (fun x => p x = false) l.
Proof.
  intros H. apply Forall_forall. intros x Hx.
  apply (find_none p l H). by apply list_elem_of_In.
Qed.

Lemma existsb_false_all {A} (p : A -> bool) (l : list A) :
  existsb p l = false <-> Forall (fun x => p x = false) l.
Proof.
  induction l as [|a l IH]; simpl.
  - split; auto.
  - rewrite orb_false_iff, IH. split.
    + intros [? ?]. by constructor.
    + by inversion 1.
Qed.

Lemma violates_None (r : User) (rs : list User) :
  violates r rs = None <->
  Forall (fun x => googleId x <> googleId r) rs /\
  Forall (fun x => forall e, email r = Some e -> email x <> Some e) rs.
Proof.
  unfold violates.
  destruct (existsb (same_googleId r) rs) eqn:Hg.
  - split; [discriminate|]. intros [H _]. exfalso.
    apply existsb_exists in Hg as (x & Hx & Hs).
    apply list_elem_of_In in Hx.
    rewrite Forall_forall in H. apply (H x Hx).
    unfold same_googleId in Hs. by apply bool_decide_eq_true in Hs.
  - apply existsb_false_all in Hg.
    destruct (existsb (same_email r) rs) eqn:He.
    + split; [discriminate|]. intros [_ H]. exfalso.
      apply existsb_exists in He as (x & Hx & Hs).
      apply list_elem_of_In in Hx.
      rewrite Forall_forall in H. specialize (H x Hx).
      unfold same_email in Hs.
      destruct (email r) as [a|] eqn:Ea; [|discriminate].
      destruct (email x) as [b|] eqn:Eb; [|discriminate].
      apply bool_decide_eq_true in Hs. subst b. by apply (H a).
    + apply existsb_false_all in He. split; [intros _|done]. split.
      * eapply Forall_impl; [exact Hg|]. intros x Hx. unfold same_googleId in Hx.
        by apply bool_decide_eq_false in Hx.
      * eapply Forall_impl; [exact He|]. intros x Hx e Hr Hxe.
        unfold same_email in Hx. rewrite Hr, Hxe in Hx.
        by apply bool_decide_eq_false in Hx.
Qed.

Lemma others_split (r : User) (l1 l2 : list User) :
  NoDup (id <$> (l1 ++ r :: l2)) ->
  others (id r) (l1 ++ r :: l2) = l1 ++ l2.
Proof.
  intros Hnd. unfold others.
  rewrite fmap_app, fmap_cons in Hnd.
  apply NoDup_app in Hnd as (_ & H1 & H2).
  apply NoDup_cons in H2 as [H2 _].
  assert (Hkeep : forall l : list User, id r ∉ id <$> l ->
            List.filter (fun x => negb (bool_decide (id x = id r))) l = l).
  { induction l as [|a l IH]; simpl; [done|]. intros Hn.
    apply not_elem_of_cons in Hn as [Hne Hn].
    rewrite bool_decide_eq_false_2 by congruence. simpl. by rewrite IH. }
  rewrite List.filter_app. simpl.
  rewrite bool_decide_eq_true_2 by done. simpl.
  rewrite !Hkeep; [done|done|].
  intros Hin. apply (H1 (id r)); [done|]. by left.
Qed.

Lemma replace_row_split (r r' : User) (l1 l2 : list User) :
  NoDup (id <$> (l1 ++ r :: l2)) -> id r' = id r ->
  replace_row r' (l1 ++ r :: l2) = l1 ++ r' :: l2.
Proof.
  intros Hnd Hid. unfold replace_row.
  rewrite fmap_app, fmap_cons in Hnd.
  apply NoDup_app in Hnd as (_ & H1 & H2).
  apply NoDup_cons in H2 as [H2 _].
  assert (Hkeep : forall l : list User, id r ∉ id <$> l ->
            List.map (fun x => if bool_decide (id x = id r') then r' else x) l = l).
  { induction l as [|a l IH]; simpl; [done|]. intros Hn.
    apply not_elem_of_cons in Hn as [Hne Hn].
    rewrite bool_decide_eq_false_2 by congruence. by rewrite IH. }
  rewrite List.map_app. simpl.
  rewrite bool_decide_eq_true_2 by done.
  rewrite !Hkeep; [done|done|].
  intros Hin. apply (H1 (id r)); [done|]. by left.
Qed.

Lemma upsert_inr w u c now d r' d' :
  wf d -> upsert w u c now d = inr (r', d') -> upsert_outcome w u c now d r' d'.
Proof.
  intros Hwf. unfold upsert, find_by_googleId.
  destruct (List.find _ (rows d)) as [r|] eqn:Hf.
  - apply find_split in Hf as (l1 & l2 & Hrows & Hr & _).
    apply bool_decide_eq_true in Hr.
    pose proof (wf_id d Hwf) as Hnd. rewrite Hrows in Hnd |- *.
    rewrite others_split by done.
    destruct (violates _ (l1 ++ l2)) eqn:Hv; [discriminate|].
    intros [= <- <-].
    rewrite replace_row_split by done.
    by eapply Updated.
  - apply find_none_all in Hf.
    destruct (violates _ (rows d)) eqn:Hv; [discriminate|].
    intros [= <- <-]. apply Inserted; try done.
    eapply Forall_impl; [exact Hf|]. intros x Hx.
    by apply bool_decide_eq_false in Hx.
Qed.

Lemma wf_empty : wf UserStore.empty.
Proof. split; simpl; constructor. Qed.

Lemma NoDup_insert_middle {A} (a : A) (l1 l2 : list A) :
  NoDup (l1 ++ l2) -> a ∉ l1 ++ l2 -> NoDup (l1 ++ a :: l2).
Proof.
  intros Hnd Hn. apply NoDup_app in Hnd as (H1 & H12 & H2).
  apply not_elem_of_app in Hn as [Hn1 Hn2].
  apply NoDup_app. split; [done|]. split.
  - intros x Hx. apply not_elem_of_cons. split; [congruence|by apply H12].
  - by apply NoDup_cons.
Qed.

Lemma NoDup_remove_middle {A} (a : A) (l1 l2 : list A) :
  NoDup (l1 ++ a :: l2) -> NoDup (l1 ++ l2).
Proof.
  intros Hnd. apply NoDup_app in Hnd as (H1 & H12 & H2).
  apply NoDup_cons in H2 as [_ H2].
  apply NoDup_app. split; [done|]. split; [|done].
  intros x Hx Hx2. apply (H12 x Hx). by right.
Qed.

Lemma omap_email_middle (r : User) (l1 l2 : list User) :
  omap email (l1 ++ r :: l2) =
  omap email l1 ++ match email r with Some e => [e] | None => [] end ++ omap email l2.
Proof. rewrite omap_app. simpl. by destruct (email r). Qed.

Lemma violates_googleId_fresh r rs :
  violates r rs = None -> googleId r ∉ googleId <$> rs.
Proof.
  intros Hv. apply violates_None in Hv as [Hg _].
  intros Hin. apply list_elem_of_fmap in Hin as (x & Hx & Hin).
  rewrite Forall_forall in Hg. by apply (Hg x Hin).
Qed.

Lemma violates_email_fresh r rs e :
  violates r rs = None -> email r = Some e -> e ∉ omap email rs.
Proof.
  intros Hv He. apply violates_None in Hv as [_ Hm].
  intros Hin. apply list_elem_of_omap in Hin as (x & Hin & Hx).
  rewrite Forall_forall in Hm. by apply (Hm x Hin e).
Qed.

(** Every successful [upsert] keeps the table's constraints. *)
Lemma upsert_wf w u c now d r' d' :
  wf d -> upsert w u c now d = inr (r', d') -> wf d'.
Proof.
  intros Hwf Hup. destruct (upsert_inr _ _ _ _ _ _ _ Hwf Hup)
    as [l1 l2 r Hrows Hg -> Hv ->| Hnone -> Hv ->].
  - destruct Hwf as [Hid Hgid Hem Hseq]. rewrite Hrows in *.
    split; simpl.
    + by rewrite fmap_app, fmap_cons in *.
    + rewrite fmap_app, fmap_cons. apply NoDup_insert_middle.
      * rewrite fmap_app, fmap_cons in Hgid. by apply NoDup_remove_middle in Hgid.
      * rewrite <- fmap_app. by apply violates_googleId_fresh.
    + rewrite omap_email_middle in *.
      destruct (email (apply_update u r)) as [e|] eqn:He; simpl.
      * apply NoDup_insert_middle.
        -- destruct (email r); simpl in Hem; [by apply NoDup_remove_middle in Hem|done].
        -- rewrite <- omap_app. by eapply violates_email_fresh.
      * destruct (email r); simpl in Hem; [by apply NoDup_remove_middle in Hem|done].
    + apply Forall_app in Hseq as [H1 H2]. apply Forall_cons in H2 as [Hr H2].
      apply Forall_app. split; [done|]. by apply Forall_cons.
  - destruct Hwf as [Hid Hgid Hem Hseq].
    assert (Hfresh : seq d + 1 ∉ id <$> rows d).
    { intros Hin. apply list_elem_of_fmap in Hin as (x & Hx & Hin).
      rewrite Forall_forall in Hseq. specialize (Hseq x Hin). lia. }
    split; simpl.
    + rewrite fmap_app. simpl. rewrite <- (app_nil_r (id <$> rows d)) in Hid, Hfresh.
      by apply NoDup_insert_middle.
    + rewrite fmap_app. simpl.
      pose proof (violates_googleId_fresh _ _ Hv) as Hf. simpl in Hf.
      rewrite <- (app_nil_r (googleId <$> rows d)) in Hgid, Hf.
      by apply NoDup_insert_middle.
    + rewrite omap_app. simpl. destruct (c_email c) as [e|] eqn:He; simpl.
      * pose proof (violates_email_fresh _ _ e Hv) as Hf. simpl in Hf.
        specialize (Hf He).
        rewrite <- (app_nil_r (omap email (rows d))) in Hem, Hf.
        by apply NoDup_insert_middle.
      * by rewrite app_nil_r.
    + apply Forall_app. split.
      * eapply Forall_impl; [exact Hseq|]. simpl. intros; lia.
      * constructor; [simpl; lia|constructor].
Qed.

Lemma run_call_wf c d : wf d -> wf (run_call c d).
Proof.
  intros Hwf. unfold run_call.
  destruct (upsert _ _ _ _ d) as [e|[r d']] eqn:Hup; [done|].
  by eapply upsert_wf.
Qed.

Lemma run_calls_wf cs d : wf d -> wf (run_calls cs d).
Proof.
  revert d. induction cs as [|c cs IH]; intros d Hwf; simpl; [done|].
  apply IH. by apply run_call_wf.
Qed.

Lemma NoDup_fmap_eq {A B} (f : A -> B) (l : list A) (x y : A) :
  NoDup (f <$> l) -> x ∈ l -> y ∈ l -> f x = f y -> x = y.
Proof.
  induction l as [|a l IH]; simpl; intros Hnd Hx Hy Hf; [by inversion Hx|].
  apply NoDup_cons in Hnd as [Ha Hnd].
  apply elem_of_cons in Hx as [Hxa|Hxl]; apply elem_of_cons in Hy as [Hya|Hyl]; subst; auto.
  - exfalso. apply Ha. rewrite Hf. by apply list_elem_of_fmap_2.
  - exfalso. apply Ha. rewrite <- Hf. by apply list_elem_of_fmap_2.
Qed.

Lemma NoDup_fmap_lookup {A B} (f : A -> B) (l : list A) (i j : nat) (x y : A) :
  NoDup (f <$> l) -> l !! i = Some x -> l !! j = Some y -> f x = f y -> i = j.
Proof.
  intros Hnd Hi Hj Hf.
  eapply NoDup_lookup; [exact Hnd| |].
  - rewrite list_lookup_fmap, Hi. reflexivity.
  - rewrite list_lookup_fmap, Hj. simpl. by rewrite Hf.
Qed.

Lemma NoDup_omap_lookup {A B} (f : A -> option B) (l : list A) (i j : nat) (x y : A) :
  NoDup (omap f l) -> l !! i = Some x -> l !! j = Some y ->
  is_Some (f x) -> f x = f y -> i = j.
Proof.
  revert i j. induction l as [|a l IH]; intros i j Hnd Hi Hj [v Hv] Hf; [done|].
  assert (Hin : forall k z, l !! k = Some z -> f z = Some v -> v ∈ omap f l).
  { intros k z Hk Hz. apply list_elem_of_omap. exists z. split; [|done].
    by eapply list_elem_of_lookup_2. }
  simpl in Hnd. destruct i as [|i], j as [|j]; simpl in *; auto.
  - injection Hi as ->. rewrite Hv in Hnd. apply NoDup_cons in Hnd as [Hn _].
    exfalso. apply Hn. eapply Hin; [exact Hj|]. by rewrite <- Hf.
  - injection Hj as ->. rewrite <- Hf, Hv in Hnd. apply NoDup_cons in Hnd as [Hn _].
    exfalso. apply Hn. by eapply Hin.
  - f_equal. apply IH; eauto.
    destruct (f a); [by apply NoDup_cons in Hnd as [_ ?]|done].
Qed.

Lemma rows_of_unique (d : Db) (r : User) :
  wf d -> r ∈ rows d -> rows_of (googleId r) d = [r].
Proof.
  intros [_ Hnd _ _]. unfold rows_of. induction (rows d) as [|a l IH]; intros Hin.
  - by inversion Hin.
  - simpl in Hnd. apply NoDup_cons in Hnd as [Ha Hnd]. simpl.
    assert (Hnone : forall g, g ∉ googleId <$> l ->
              List.filter (fun x => bool_decide (googleId x = g)) l = []).
    { clear. intros g. induction l as [|b l IH]; simpl; [done|]. intros Hn.
      apply not_elem_of_cons in Hn as [Hne Hn].
      rewrite bool_decide_eq_false_2 by congruence. by apply IH. }
    destruct (decide (r = a)) as [->|Hne].
    + rewrite bool_decide_eq_true_2 by done. by rewrite Hnone.
    + apply elem_of_cons in Hin as [?|Hin]; [done|].
      rewrite bool_decide_eq_false_2.
      * by apply IH.
      * intros Heq. apply Ha. rewrite Heq. by apply list_elem_of_fmap_2.
Qed.

Lemma find_by_googleId_unique (d : Db) (r : User) :
  wf d -> r ∈ rows d -> find_by_googleId (googleId r) d = Some r.
Proof.
  intros Hwf Hin. unfold find_by_googleId.
  destruct (List.find _ (rows d)) as [r0|] eqn:Hf.
  - apply find_some in Hf as [Hin0 Hg]. apply bool_decide_eq_true in Hg.
    apply list_elem_of_In in Hin0. f_equal.
    by eapply NoDup_fmap_eq; [apply (wf_googleId d Hwf)| | |].
  - apply find_none_all in Hf. rewrite Forall_forall in Hf.
    specialize (Hf r Hin). by apply bool_decide_eq_false in Hf.
Qed.

(** What the login upsert returns and what it leaves of the other rows. *)
Lemma login_upsert_result (p : UserCreateInput) (t : Z) (d d' : Db) (u : User) :
  wf d -> upsert_google_user p t d = inr (u, d') ->
  googleId u = c_googleId p /\ u ∈ rows d' /\
  (forall x, googleId x <> c_googleId p -> x ∈ rows d' <-> x ∈ rows d) /\
  match find_by_googleId (c_googleId p) d with
  | Some r =>
      r ∈ rows d /\
      id u = id r /\ createdAt u = createdAt r /\
      email u = refreshed (c_email p) (email r) /\
      name u = refreshed (c_name p) (name r) /\
      picture u = refreshed (c_picture p) (picture r)
  | None => u = new_row p (seq d + 1) t
  end.
Proof.
  intros Hwf Hup. unfold upsert_google_user in Hup.
  pose proof (upsert_inr _ _ _ _ _ _ _ Hwf Hup) as Hout.
  assert (Hmem : googleId u = c_googleId p /\ u ∈ rows d' /\
            (forall x, googleId x <> c_googleId p -> x ∈ rows d' <-> x ∈ rows d)).
  { destruct Hout as [l1 l2 r Hrows Hg -> Hv ->| Hnone -> Hv ->]; simpl.
    - split; [done|]. split; [set_solver|].
      intros x Hx. rewrite Hrows. rewrite !elem_of_app, !elem_of_cons.
      split; (intros [?|[Hxe|?]]; [auto| |auto]); subst x; simpl in Hx; congruence.
    - split; [done|]. split; [set_solver|].
      intros x Hx. rewrite elem_of_app, list_elem_of_singleton.
      split; [|auto]. intros [?|Hxe]; [done|]. subst x. by simpl in Hx. }
  destruct Hmem as (Hg & Hin & Hoth). do 3 (split; [done|]).
  unfold upsert in Hup.
  destruct (find_by_googleId (c_googleId p) d) as [r|] eqn:Hf.
  - destruct (violates _ _); [discriminate|]. injection Hup as <- <-.
    split; [|by simpl].
    unfold find_by_googleId in Hf. apply find_some in Hf as [Hr _].
    by apply list_elem_of_In.
  - destruct (violates _ _); [discriminate|]. by injection Hup as <- <-.
Qed.

(** The login upsert goes through when the payload's email is not held by
    a row of another external id. *)
Lemma login_upsert_succeeds (p : UserCreateInput) (t : Z) (d : Db) :
  wf d -> email_free (c_email p) (c_googleId p) d ->
  exists u d', upsert_google_user p t d = inr (u, d').
Proof.
  intros Hwf Hfree. unfold upsert_google_user, upsert, find_by_googleId.
  destruct (List.find _ (rows d)) as [r|] eqn:Hf.
  - apply find_split in Hf as (l1 & l2 & Hrows & Hr & _).
    apply bool_decide_eq_true in Hr.
    pose proof (wf_id d Hwf) as Hid.
    pose proof (wf_googleId d Hwf) as Hgid.
    pose proof (wf_email d Hwf) as Hem.
    rewrite Hrows in Hid, Hgid, Hem. rewrite Hrows.
    rewrite others_split by done.
    assert (Hother : forall x, x ∈ l1 ++ l2 -> googleId x <> googleId r).
    { intros x Hx Heq. rewrite fmap_app, fmap_cons in Hgid.
      apply NoDup_app in Hgid as (_ & H12 & H2). apply NoDup_cons in H2 as [H2 _].
      apply elem_of_app in Hx as [Hx|Hx].
      - apply (H12 (googleId x)); [by apply list_elem_of_fmap_2|]. rewrite Heq. by left.
      - apply H2. rewrite <- Heq. by apply list_elem_of_fmap_2. }
    destruct (violates _ (l1 ++ l2)) as [f|] eqn:Hv; [|eauto].
    exfalso. assert (Hnone : violates (apply_update
        {| u_googleId := None; u_email := c_email p; u_name := c_name p;
           u_picture := c_picture p |} r) (l1 ++ l2) = None); [|congruence].
    apply violates_None. split; apply Forall_forall; intros x Hx; simpl.
    + by apply Hother.
    + intros e He Hxe. destruct (c_email p) as [v|] eqn:Hp.
      * injection He as ->. eapply (Hfree x e); try done.
        -- rewrite Hrows. apply elem_of_app in Hx as [Hl|Hl];
             rewrite elem_of_app, elem_of_cons; auto.
        -- rewrite <- Hr. by apply Hother.
      * rewrite omap_email_middle, He in Hem. simpl in Hem.
        apply NoDup_app in Hem as (_ & H12 & H2). apply NoDup_cons in H2 as [H2 _].
        apply elem_of_app in Hx as [Hx|Hx].
        -- apply (H12 e); [|by left]. apply list_elem_of_omap. eauto.
        -- apply H2. apply list_elem_of_omap. eauto.
  - apply find_none_all in Hf. rewrite Forall_forall in Hf.
    destruct (violates _ (rows d)) as [f|] eqn:Hv; [|eauto].
    exfalso. assert (Hnone : violates (new_row p (seq d + 1) t) (rows d) = None);
      [|congruence].
    apply violates_None. split; apply Forall_forall; intros x Hx; simpl.
    + specialize (Hf x Hx). by apply bool_decide_eq_false in Hf.
    + intros e He. eapply Hfree; try done.
      specialize (Hf x Hx). by apply bool_decide_eq_false in Hf.
Qed.

(** C2 (amended).  On a store that meets its constraints, let two payloads
    for the same external id [k] carry emails that no row of another
    external id holds.  Then both upserts go through and leave exactly one
    row for [k]; its [id] and [createdAt] are those of the first upsert;
    each of [email], [name] and [picture] is the second payload's value
    where the second payload gives one, and the value the first upsert
    left where it gives none. *)
Theorem upsert_twice_refreshes_profile
    (d : Db) (k : string) (e1 n1 p1 e2 n2 p2 : option string) (t1 t2 : Z) :
  wf d -> email_free e1 k d -> email_free e2 k d ->
  exists u1 d1 u2 d2,
    upsert_google_user (mkCreate k e1 n1 p1) t1 d = inr (u1, d1) /\
    upsert_google_user (mkCreate k e2 n2 p2) t2 d1 = inr (u2, d2) /\
    rows_of k d2 = [u2] /\
    id u2 = id u1 /\ createdAt u2 = createdAt u1 /\
    email u2 = refreshed e2 (email u1) /\
    name u2 = refreshed n2 (name u1) /\
    picture u2 = refreshed p2 (picture u1).
Proof.
  intros Hwf Hf1 Hf2.
  destruct (login_upsert_succeeds (mkCreate k e1 n1 p1) t1 d Hwf Hf1) as (u1 & d1 & Hup1).
  pose proof (upsert_wf _ _ _ _ _ _ _ Hwf Hup1) as Hwf1.
  destruct (login_upsert_result _ _ _ _ _ Hwf Hup1) as (Hg1 & Hin1 & Hoth1 & _).
  simpl in Hg1, Hoth1.
  assert (Hf2' : email_free e2 k d1).
  { intros x v Hx Hne. apply Hf2; [|done]. by apply Hoth1. }
  destruct (login_upsert_succeeds (mkCreate k e2 n2 p2) t2 d1 Hwf1 Hf2') as (u2 & d2 & Hup2).
  pose proof (upsert_wf _ _ _ _ _ _ _ Hwf1 Hup2) as Hwf2.
  destruct (login_upsert_result _ _ _ _ _ Hwf1 Hup2) as (Hg2 & Hin2 & _ & Hres).
  simpl in Hg2, Hres.
  rewrite <- Hg1, (find_by_googleId_unique d1 u1 Hwf1 Hin1) in Hres.
  destruct Hres as (_ & Hid & Hcr & Hem & Hnm & Hpic).
  exists u1, d1, u2, d2. repeat split; try done.
  rewrite <- Hg2. by apply rows_of_unique.
Qed.

Lemma upsert_twice_refreshes_profile_witness :
  exists u1 d1 u2 d2,
    upsert_google_user
      (mkCreate "g-1" (Some "old@example.com") (Some "Old") None) 10
      UserStore.empty = inr (u1, d1) /\
    upsert_google_user (mkCreate "g-1" None (Some "New") None) 20 d1 = inr (u2, d2) /\
    rows_of "g-1" d2 = [u2] /\
    id u2 = id u1 /\ createdAt u2 = createdAt u1 /\
    email u2 = refreshed None (email u1) /\
    name u2 = refreshed (Some "New") (name u1) /\
    picture u2 = refreshed None (picture u1).
Proof.
  apply (upsert_twice_refreshes_profile UserStore.empty "g-1"
           (Some "old@example.com") (Some "Old") None None (Some "New") None 10 20).
  - exact wf_empty.
  - intros x v Hx. simpl in Hx. by apply elem_of_nil in Hx.
  - intros x v Hx. simpl in Hx. by apply elem_of_nil in Hx.
Defined.

(** C2 as the specification words it does not hold: a second payload that
    carries no email leaves the first email in the row, and a second
    payload whose email another row holds is rejected. *)
Lemma upsert_twice_counterexample :
  ~ upsert_twice_as_specified_from_empty /\ ~ upsert_twice_as_specified.
Proof.
  split.
  - intros H.
    destruct (H "g-1" (Some "old@example.com") (Some "Old") None
                None (Some "New") None 10 20)
      as (u1 & d1 & u2 & d2 & H1 & H2 & _ & _ & _ & He & _).
    vm_compute in H1. injection H1 as <- <-.
    vm_compute in H2. injection H2 as <- <-.
    discriminate He.
  - intros H.
    destruct (H {| rows := [mkUser 1 "g-2" (Some "taken@example.com") None None 5];
                   seq := 1 |}
                "g-1" (Some "old@example.com") None None
                (Some "taken@example.com") None None 10 20)
      as (u1 & d1 & u2 & d2 & H1 & H2 & _).
    + split; simpl; repeat constructor; set_solver.
    + vm_compute in H1. injection H1 as <- <-.
      vm_compute in H2. discriminate H2.
Qed.

(** C3 (amended).  After any sequence of upserts every external id in the
    store has exactly one row.  For distinct external ids A and B whose
    payload emails are held by no row of another external id, and are not
    the same email, upserting A and then B goes through and leaves one row
    for each, the two rows distinct and with distinct [id]. *)
Theorem one_row_per_external_id :
  (forall (cs : list UpsertCall) (r : User),
      r ∈ rows (run_calls cs UserStore.empty) ->
      rows_of (googleId r) (run_calls cs UserStore.empty) = [r]) /\
  (forall (d : Db) (pa pb : UserCreateInput) (ta tb : Z),
      wf d -> c_googleId pa <> c_googleId pb ->
      email_free (c_email pa) (c_googleId pa) d ->
      email_free (c_email pb) (c_googleId pb) d ->
      (forall e, c_email pa = Some e -> c_email pb <> Some e) ->
      exists ua d1 ub d2,
        upsert_google_user pa ta d = inr (ua, d1) /\
        upsert_google_user pb tb d1 = inr (ub, d2) /\
        rows_of (c_googleId pa) d2 = [ua] /\
        rows_of (c_googleId pb) d2 = [ub] /\
        ua <> ub /\ id ua <> id ub).
Proof.
  split.
  - intros cs r Hin. apply rows_of_unique; [|done].
    apply run_calls_wf, wf_empty.
  - intros d pa pb ta tb Hwf Hne Hfa Hfb Hdiff.
    destruct (login_upsert_succeeds pa ta d Hwf Hfa) as (ua & d1 & Hupa).
    pose proof (upsert_wf _ _ _ _ _ _ _ Hwf Hupa) as Hwf1.
    destruct (login_upsert_result _ _ _ _ _ Hwf Hupa) as (Hga & Hina & Hotha & Hresa).
    assert (Hfb' : email_free (c_email pb) (c_googleId pb) d1).
    { intros x v Hx Hxb Hv.
      destruct (decide (googleId x = c_googleId pa)) as [Hxa|Hxa].
      - assert (x = ua) as ->.
        { eapply NoDup_fmap_eq; [apply (wf_googleId d1 Hwf1)|done|done|congruence]. }
        destruct (find_by_googleId (c_googleId pa) d) as [r|] eqn:Hfind.
        + destruct Hresa as (Hr & _ & _ & Hem & _). rewrite Hem.
          destruct (c_email pa) as [e|] eqn:Hpa; simpl.
          * intros [= ->]. by apply (Hdiff v).
          * apply (Hfb r v); [done| |done].
            unfold find_by_googleId in Hfind. apply find_some in Hfind as [_ Hg].
            apply bool_decide_eq_true in Hg. congruence.
        + subst ua. simpl. intros Hem. by apply (Hdiff v).
      - apply (Hfb x v); [|done|done]. by apply Hotha. }
    destruct (login_upsert_succeeds pb tb d1 Hwf1 Hfb') as (ub & d2 & Hupb).
    pose proof (upsert_wf _ _ _ _ _ _ _ Hwf1 Hupb) as Hwf2.
    destruct (login_upsert_result _ _ _ _ _ Hwf1 Hupb) as (Hgb & Hinb & Hothb & _).
    assert (Hina2 : ua ∈ rows d2) by (apply Hothb; [congruence|done]).
    assert (Hab : ua <> ub) by congruence.
    exists ua, d1, ub, d2. repeat split; try done.
    + rewrite <- Hga. by apply rows_of_unique.
    + rewrite <- Hgb. by apply rows_of_unique.
    + intros Hid. apply Hab.
      by eapply NoDup_fmap_eq; [apply (wf_id d2 Hwf2)| | |].
Qed.

Lemma one_row_per_external_id_witness :
  exists ua d1 ub d2,
    upsert_google_user (mkCreate "g-A" (Some "a@example.com") None None) 1
      UserStore.empty = inr (ua, d1) /\
    upsert_google_user (mkCreate "g-B" (Some "b@example.com") None None) 2 d1
      = inr (ub, d2) /\
    rows_of "g-A" d2 = [ua] /\ rows_of "g-B" d2 = [ub] /\
    ua <> ub /\ id ua <> id ub.
Proof.
  apply (proj2 one_row_per_external_id UserStore.empty
           (mkCreate "g-A" (Some "a@example.com") None None)
           (mkCreate "g-B" (Some "b@example.com") None None) 1 2).
  - exact wf_empty.
  - simpl. discriminate.
  - intros x v Hx. simpl in Hx. by apply elem_of_nil in Hx.
  - intros x v Hx. simpl in Hx. by apply elem_of_nil in Hx.
  - simpl. intros e [= <-]. discriminate.
Defined.

(** C3 as the specification words it does not hold: B's upsert is
    rejected when its email is the one A was stored with. *)
Lemma distinct_ids_counterexample : ~ distinct_ids_as_specified.
Proof.
  intros H.
  destruct (H UserStore.empty
              (mkCreate "g-A" (Some "shared@example.com") None None)
              (mkCreate "g-B" (Some "shared@example.com") None None) 1 2)
    as (ua & d1 & ub & d2 & H1 & H2 & _).
  - exact wf_empty.
  - simpl. discriminate.
  - vm_compute in H1. injection H1 as <- <-.
    vm_compute in H2. discriminate H2.
Qed.

(** C8 (amended).  After any sequence of upserts no two rows hold the same
    non-null [email]; the table puts no such constraint on [name] and
    [picture]. *)
Theorem email_unique_or_null (cs : list UpsertCall) (i j : nat) (r1 r2 : User)
    (e : string) :
  rows (run_calls cs UserStore.empty) !! i = Some r1 ->
  rows (run_calls cs UserStore.empty) !! j = Some r2 ->
  email r1 = Some e -> email r2 = Some e ->
  i = j.
Proof.
  pose proof (run_calls_wf cs UserStore.empty wf_empty) as Hwf.
  intros Hi Hj H1 H2.
  eapply NoDup_omap_lookup; [apply (wf_email _ Hwf)|exact Hi|exact Hj| |].
  - rewrite H1. by eexists.
  - congruence.
Qed.

Lemma email_unique_or_null_witness :
  let cs := [login_call (mkCreate "g-A" (Some "a@example.com") None None) 1;
             login_call (mkCreate "g-B" (Some "a@example.com") None None) 2;
             login_call (mkCreate "g-C" None None None) 3] in
  length (rows (run_calls cs UserStore.empty)) = 2%nat /\ (0 = 0)%nat.
Proof.
  split; [reflexivity|].
  apply (email_unique_or_null
           [login_call (mkCreate "g-A" (Some "a@example.com") None None) 1;
            login_call (mkCreate "g-B" (Some "a@example.com") None None) 2;
            login_call (mkCreate "g-C" None None None) 3]
           0 0 (mkUser 1 "g-A" (Some "a@example.com") None None 1)
           (mkUser 1 "g-A" (Some "a@example.com") None None 1) "a@example.com");
    reflexivity.
Defined.

(** C8 as the specification words it does not hold: two logins with the
    same display name and the same photo leave two rows that share
    [name] and [picture]. *)
Lemma profile_columns_unique_counterexample :
  ~ profile_columns_unique_as_specified /\
  ~ (forall cs, unique_or_null name (run_calls cs UserStore.empty)) /\
  ~ (forall cs, unique_or_null picture (run_calls cs UserStore.empty)).
Proof.
  pose (cs := [login_call (mkCreate "g-A" (Some "a@example.com") (Some "Sam") (Some "img")) 1;
               login_call (mkCreate "g-B" (Some "b@example.com") (Some "Sam") (Some "img")) 2]).
  assert (Hn : ~ unique_or_null name (run_calls cs UserStore.empty)).
  { intros H. by specialize (H 0%nat 1%nat _ _ eq_refl eq_refl (mk_is_Some _ _ eq_refl) eq_refl). }
  assert (Hp : ~ unique_or_null picture (run_calls cs UserStore.empty)).
  { intros H. by specialize (H 0%nat 1%nat _ _ eq_refl eq_refl (mk_is_Some _ _ eq_refl) eq_refl). }
  split; [|split].
  - intros H. apply Hn. apply (H cs).
  - intros H. apply Hn, H.
  - intros H. apply Hp, H.
Qed.

End StoreFacts.

(** ** Proofs: the request pipeline *)
Module AppFacts.
Import UserStore App AppSpec.
Local Open Scope list_scope.

(** *** Symbolic execution

    A request is run by call-by-value evaluation of the handlers; where
    the run depends on an answer of the environment (a cookie, a stored
    session, a fault, the result of a query) the proof splits on it. *)

Ltac head_of t := lazymatch t with ?f _ => head_of f | _ => t end.

Ltac stuck_on t :=
  let h := head_of t in
  lazymatch h with
  | match ?x with _ => _ end => stuck_on x
  | _ => t
  end.

Ltac split_on_stuck HS :=
  repeat (lazymatch type of HS with
          | _ = ?rhs =>
              let y := stuck_on rhs in
              lazymatch y with
              | rhs => fail
              | _ => destruct y eqn:?; cbv beta iota fix zeta match in HS
              end
          end).

Ltac run_middleware HS :=
  cbv -[upsert findUnique findMany store_get store_put store_remove
        Z.add Z.eqb upsert_test_user upsert_google_user router routes final] in HS;
  split_on_stuck HS.

Ltac run_route HS :=
  cbv -[upsert findUnique findMany store_get store_put store_remove
        Z.add Z.eqb upsert_test_user upsert_google_user] in HS;
  split_on_stuck HS.

Ltac use_eqns :=
  repeat match goal with
         | H : ?l = _ |- context [?l] => rewrite H
         end.

(** All the ways [pre ++ x :: post] can be a given explicit list. *)
Ltac split_trace H :=
  repeat match type of H with
  | _ = ?pre ++ _ :: _ =>
      is_var pre; destruct pre; simpl in H;
      [try discriminate H | injection H as ? H; subst]
  | [] = _ ++ _ :: _ => by destruct (app_cons_not_nil _ _ _ H)
  end.

Lemma store_get_put sid data m : store_get sid (store_put sid data m) = Some data.
Proof. apply lookup_insert_eq. Qed.

(** Session resolution: what the middleware stack leaves for the router.
    Without a principal reference the router runs for an anonymous
    request; with one, a database fault goes to the error handler, and
    otherwise the router runs with [req.user] set to what the lookup
    found. *)
Lemma resolve_cases env req s :
  match principal req s with
  | None =>
      exists sid sess nsid,
        handle env req s =
        router routes req (route_exit req)
          (mkState (db s) (clock s) (db_faults s) (store s) (store_faults s)
             nsid sid sess None true true [Log SESSION "New HTTP request"])
  | Some ref =>
      match db_faults s with
      | Some e :: rest =>
          exists sid sess,
            handle env req s =
            error_handler e req (fun _ => halt)
              (mkState (db s) (clock s) rest (store s) (store_faults s)
                 (next_sid s) sid sess None true false
                 [Log SESSION "New HTTP request";
                  Log SESSION "Loading user from session";
                  Log ERROR "Error loading user from database during deserializeUser"])
      | fs =>
          exists sid,
            sid_cookie req = Some sid /\
            handle env req s =
            router routes req (route_exit req)
              (mkState (db s) (clock s) (tail fs) (store s) (store_faults s)
                 (next_sid s) sid
                 (match findUnique ref (db s) with
                  | Some _ => {| passport_user := Some ref |}
                  | None => empty_session
                  end)
                 (findUnique ref (db s)) true true
                 [Log SESSION "New HTTP request";
                  Log SESSION "Loading user from session"])
      end
  end.
Proof.
  destruct s, req. unfold principal.
  cbn [sid_cookie store db db_faults clock store_faults next_sid].
  remember (handle _ _ _) as S eqn:HS.
  run_middleware HS; subst S; use_eqns; cbn [passport_user tail]; use_eqns; eauto.
Qed.

Ltac close_established :=
  eexists; split; [reflexivity|]; split;
  [ repeat first [apply list_elem_of_here | apply list_elem_of_further]
  | split; [reflexivity | apply store_get_put] ].

Ltac check_route :=
  let St := fresh "St" in let HS := fresh "HS" in let H := fresh "H" in
  match goal with
  | |- context [router ?a ?b ?c ?d] => remember (router a b c d) as St eqn:HS
  | |- context [error_handler ?a ?b ?c ?d] =>
      remember (error_handler a b c d) as St eqn:HS
  end;
  run_route HS; subst St; unfold established;
  cbn [events user sessionID store]; intros H; split_trace H;
  close_established.

(** The router is entered with the trace of the middleware stack: one
    line, or two when a principal reference was looked up. *)
Lemma router_entry env req s :
  (exists e sid sess,
      handle env req s =
      error_handler e req (fun _ => halt)
        (mkState (db s) (clock s) (tail (db_faults s)) (store s) (store_faults s)
           (next_sid s) sid sess None true false
           [Log SESSION "New HTTP request";
            Log SESSION "Loading user from session";
            Log ERROR "Error loading user from database during deserializeUser"])) \/
  (exists fs nsid sid sess u tl,
      handle env req s =
      router routes req (route_exit req)
        (mkState (db s) (clock s) fs (store s) (store_faults s)
           nsid sid sess u true true (Log SESSION "New HTTP request" :: tl)) /\
      (tl = [] \/ tl = [Log SESSION "Loading user from session"])).
Proof.
  pose proof (resolve_cases env req s) as Hres.
  destruct (principal req s) as [ref|].
  - destruct (db_faults s) as [|[e|] rest].
    + destruct Hres as (sid & _ & ->). right. repeat eexists. by right.
    + destruct Hres as (sid & sess & ->). left. by repeat eexists.
    + destruct Hres as (sid & _ & ->). right. repeat eexists. by right.
  - destruct Hres as (sid & sess & nsid & ->). right. repeat eexists. by left.
Qed.

(** C1.  In a request to the provider callback or to the dev-login
    bypass, whatever the cookie, the provider's answer and the faults of
    the database and of the session store: when a redirect to
    [/dashboard] is emitted, the trace before it holds the store's
    acknowledgement of the write of the logged-in user's id under the
    request's session id, no write to the store is still unanswered, and
    the store holds that reference. *)
Theorem session_saved_before_dashboard_redirect
    (env : Env) (req : Request) (s : State) (pre post : list Event) :
  method req = "GET" ->
  path req = "/auth/google/callback" \/ path req = "/dev-login" ->
  events (handle env req s) = pre ++ Respond (Redirect 302 "/dashboard") :: post ->
  exists u,
    user (handle env req s) = Some u /\
    StoreAck (sessionID (handle env req s)) {| passport_user := Some (id u) |} ∈ pre /\
    unanswered pre = 0 /\
    store_get (sessionID (handle env req s)) (store (handle env req s))
      = Some {| passport_user := Some (id u) |}.
Proof.
  intros Hm Hp. change (events (handle env req s) =
                        pre ++ Respond (Redirect 302 "/dashboard") :: post ->
                        established (handle env req s) pre).
  destruct (router_entry env req s)
    as [(e & sid & sess & ->)|(fs & nsid & sid & sess & u & tl & -> & Htl)].
  - destruct req, s; simpl in Hm, Hp; subst.
    cbn [db clock db_faults store store_faults next_sid]. check_route.
  - destruct req, s; simpl in Hm, Hp; subst.
    cbn [db clock db_faults store store_faults next_sid].
    destruct Hp as [-> | ->]; destruct Htl as [-> | ->]; check_route.
Qed.

Lemma session_saved_before_dashboard_redirect_witness :
  exists u,
    user (handle production (get "/dev-login" None Begin) initial) = Some u /\
    StoreAck (sessionID (handle production (get "/dev-login" None Begin) initial))
      {| passport_user := Some (id u) |}
    ∈ [Log SESSION "New HTTP request";
       Log ROUTE "Dev login endpoint called (/dev-login)";
       StoreDestroy 1;
       Log SESSION "Saving user reference into session";
       StoreSet 2 {| passport_user := Some 1 |};
       StoreAck 2 {| passport_user := Some 1 |};
       Log AUTH "Dev user logged in successfully"] /\
    unanswered
      [Log SESSION "New HTTP request";
       Log ROUTE "Dev login endpoint called (/dev-login)";
       StoreDestroy 1;
       Log SESSION "Saving user reference into session";
       StoreSet 2 {| passport_user := Some 1 |};
       StoreAck 2 {| passport_user := Some 1 |};
       Log AUTH "Dev user logged in successfully"] = 0 /\
    store_get (sessionID (handle production (get "/dev-login" None Begin) initial))
      (store (handle production (get "/dev-login" None Begin) initial))
      = Some {| passport_user := Some (id u) |}.
Proof.
  apply (session_saved_before_dashboard_redirect production
           (get "/dev-login" None Begin) initial _ []).
  - reflexivity.
  - right. reflexivity.
  - vm_compute. reflexivity.
Defined.

(** The provider callback, run without faults: the session is written and
    acknowledged twice (by the login, then by the handler's own save)
    before the redirect. *)
Example callback_login_trace :
  events (handle production
            (get "/auth/google/callback" None
               (Granted (mkProfile "g-1" (Some ["a@example.com"]) (Some "Ada") None)))
            initial) =
  [Log SESSION "New HTTP request";
   Log ROUTE "User returned from Google, handling callback";
   Log AUTH "Received profile from Google";
   Log AUTH "Mapped Google profile to local user data";
   Log AUTH "User stored in database (Prisma upsert)";
   StoreDestroy 1;
   Log SESSION "Saving user reference into session";
   StoreSet 2 {| passport_user := Some 1 |};
   StoreAck 2 {| passport_user := Some 1 |};
   Log AUTH "Google login succeeded, preparing to open session";
   StoreSet 2 {| passport_user := Some 1 |};
   StoreAck 2 {| passport_user := Some 1 |};
   Log AUTH "Session saved, redirecting user to dashboard";
   Respond (Redirect 302 "/dashboard")].
Proof. vm_compute. reflexivity. Qed.

(** A session store that fails the save: no redirect, the error page. *)
Example callback_save_fault_trace :
  responses (events (handle production
            (get "/auth/google/callback" None
               (Granted (mkProfile "g-1" (Some ["a@example.com"]) (Some "Ada") None)))
            (set_store_faults [None; None; Some (mkError None "store down")] initial))) =
  [Render 500 "error" "Erro" (Some "Ocorreu um erro inesperado.") []].
Proof. vm_compute. reflexivity. Qed.








(** C7 (amended).  The error handler answers with the fault's status
    ([500] for a fault without one) and calls nothing further: JSON when
    the client accepts JSON and not HTML, the error page otherwise.  The
    message is the generic one exactly when that status is 500; for any
    other status, other 5xx codes included, it is the fault's own
    message. *)
Theorem error_boundary_response
    (err : Error) (req : Request) (next : Callback) (s : State) :
  error_handler err req next s =
    set_events
      (events s ++
       [Log ERROR "Unhandled error while processing request";
        Respond
          (if accepts_json req && negb (accepts_html req)
           then Json (status_or_500 err) "error"
                  (if (status_or_500 err =? 500)%Z
                   then "Internal server error" else message err)
           else Render (status_or_500 err) "error" "Erro"
                  (Some (if (status_or_500 err =? 500)%Z
                         then "Ocorreu um erro inesperado." else message err))
                  [])]) s /\
  (status_or_500 err = 500 <->
   status err = None \/ status err = Some 0 \/ status err = Some 500).
Proof.
  split.
  - destruct s.
    unfold error_handler, then_, log, render, emit, json_message, page_message.
    destruct (accepts_json req), (accepts_html req);
      cbn [events set_events db clock db_faults store store_faults next_sid
           sessionID session user has_passport showDevLogin andb negb];
      by rewrite <- app_assoc.
  - unfold status_or_500. destruct (status err) as [n|]; [|intuition].
    destruct (Z.eqb_spec n 0) as [->|Hn0].
    + intuition.
    + split; [intros ->; auto|].
      intros [H|[H|H]]; [discriminate|congruence|congruence].
Qed.

(** C7 as the specification words it does not hold: a fault with status
    503 is server-caused and is shown with its own message. *)
Lemma error_boundary_counterexample : ~ messages_as_specified.
Proof.
  intros H.
  destruct (H {| status := Some 503; message := "upstream unavailable" |}) as [Hj _].
  vm_compute in Hj. discriminate Hj.
Qed.

(** A database fault on the way to the dashboard, for a client that takes
    JSON only. *)
Example database_fault_is_masked :
  responses (events (handle production
      {| method := "GET"; path := "/dev-login"; sid_cookie := None;
         accepts_json := true; accepts_html := false; provider := Begin |}
      (set_db_faults [Some (mkError None "SQLITE_BUSY: database is locked")] initial)))
  = [Json 500 "error" "Internal server error"].
Proof. vm_compute. reflexivity. Qed.

(** C9.  The dev-login bypass answers in every environment, production
    included: from the initial state its request upserts the synthetic
    user, logs it in, stores the session and redirects to the dashboard;
    and the views are told to show the dev-login entry. *)
Theorem dev_login_reachable_in_every_environment (env : Env) :
  responses (events (handle env (get "/dev-login" None Begin) initial))
    = [Redirect 302 "/dashboard"] /\
  user (handle env (get "/dev-login" None Begin) initial)
    = Some (mkUser 1 "dev-google-123" (Some "dev@example.com") (Some "Dev Tester")
              (Some "") 0) /\
  store_get (sessionID (handle env (get "/dev-login" None Begin) initial))
    (store (handle env (get "/dev-login" None Begin) initial))
    = Some {| passport_user := Some 1 |} /\
  showDevLogin (handle env (get "/dev-login" None Begin) initial) = true /\
  handle env (get "/dev-login" None Begin) initial
    = handle production (get "/dev-login" None Begin) initial.
Proof.
  do 4 (split; [vm_compute; reflexivity|]). vm_compute. reflexivity.
Qed.

(** Nothing in the application reads the environment once the session
    secret is set aside: every request is served alike in every
    environment. *)
Lemma handle_ignores_environment (env env' : Env) (req : Request) (s : State) :
  handle env req s = handle env' req s.
Proof. reflexivity. Qed.

(** C10.  Whatever the environment, the cookie that carries a session id
    is [httpOnly], lives 24 hours (in milliseconds) and is not [secure]. *)
Theorem session_cookie_is_constant (env : Env) (sid : Z) :
  httpOnly (cookie_attrs (session_cookie env sid)) = true /\
  maxAge (cookie_attrs (session_cookie env sid)) = 24 * 60 * 60 * 1000 /\
  secure (cookie_attrs (session_cookie env sid)) = false /\
  cookie (session_options env) = cookie (session_options production).
Proof. do 3 (split; [reflexivity|]). reflexivity. Qed.

(** The scenario of the test suite: dev-login, dashboard, logout,
    dashboard again, on one client. *)
Example scenario_dev_login_dashboard_logout :
  let s1 := handle production (get "/dev-login" None Begin) initial in
  let s2 := handle production (get "/dashboard" (Some (sessionID s1)) Begin) s1 in
  let s3 := handle production (get "/logout" (Some (sessionID s1)) Begin) s2 in
  let s4 := handle production (get "/dashboard" (Some (sessionID s1)) Begin) s3 in
  responses (events s1) = [Redirect 302 "/dashboard"] /\
  responses (events s2) =
    [Render 200 "dashboard" "Dashboard" None
       [mkUser 1 "dev-google-123" (Some "dev@example.com") (Some "Dev Tester")
          (Some "") 0]] /\
  responses (events s3) = [Redirect 302 "/"] /\
  responses (events s4) = [Redirect 302 "/login"].
Proof. vm_compute. do 3 (split; [reflexivity|]). reflexivity. Qed.

End AppFacts.

(** ** Proofs: more on the user store *)
Module StoreMore.
Import UserStore App StoreSpec AppSpec StoreFacts MoreSpec.
Local Open Scope list_scope.

Lemma findUnique_unique (d : Db) (r : User) :
  wf d -> r ∈ rows d -> findUnique (id r) d = Some r.
Proof.
  intros Hwf Hin. unfold findUnique.
  destruct (List.find _ (rows d)) as [r0|] eqn:Hf.
  - apply find_some in Hf as [Hin0 Hg]. apply bool_decide_eq_true in Hg.
    apply list_elem_of_In in Hin0. f_equal.
    by eapply NoDup_fmap_eq; [apply (wf_id d Hwf)| | |].
  - apply find_none_all in Hf. rewrite Forall_forall in Hf.
    specialize (Hf r Hin). by apply bool_decide_eq_false in Hf.
Qed.

Lemma upsert_returns_member w u c t d r d' :
  wf d -> upsert w u c t d = inr (r, d') -> r ∈ rows d'.
Proof.
  intros Hwf Hup.
  destruct (upsert_inr _ _ _ _ _ _ _ Hwf Hup) as [l1 l2 r0 _ _ _ _ ->| _ _ _ ->]; simpl.
  - rewrite elem_of_app, elem_of_cons. auto.
  - rewrite elem_of_app, list_elem_of_singleton. auto.
Qed.

(** X1.  Insert/lookup round trip: the row an upsert returns is in the
    table afterwards, and both lookups the application uses, by [id] and
    by [googleId], find exactly that row. *)
Theorem upsert_then_lookup (w : string) (u : UserUpdateInput) (c : UserCreateInput)
    (t : Z) (d d' : Db) (r : User) :
  wf d -> upsert w u c t d = inr (r, d') ->
  r ∈ rows d' /\ findUnique (id r) d' = Some r /\
  find_by_googleId (googleId r) d' = Some r.
Proof.
  intros Hwf Hup.
  pose proof (upsert_wf _ _ _ _ _ _ _ Hwf Hup) as Hwf'.
  pose proof (upsert_returns_member _ _ _ _ _ _ _ Hwf Hup) as Hin.
  split; [done|]. split.
  - by apply findUnique_unique.
  - by apply find_by_googleId_unique.
Qed.

Lemma upsert_then_lookup_witness :
  exists r d',
    upsert_google_user (mkCreate "g-1" (Some "a@example.com") None None) 5
      UserStore.empty = inr (r, d') /\
    r ∈ rows d' /\ findUnique (id r) d' = Some r /\
    find_by_googleId (googleId r) d' = Some r.
Proof.
  eexists _, _. split; [reflexivity|].
  apply (upsert_then_lookup "g-1"
           (mkUpdate None (Some "a@example.com") None None)
           (mkCreate "g-1" (Some "a@example.com") None None) 5 UserStore.empty).
  - exact wf_empty.
  - reflexivity.
Defined.

(** X2.  A login with an external id the table does not know appends one
    row: its [id] is larger than every [id] in the table, its [createdAt]
    is the time of the call, its profile columns are the payload's (NULL
    where the payload has none), and the rows already there stay as they
    were, in their order. *)
Theorem first_login_creates_row (p : UserCreateInput) (t : Z) (d d' : Db) (r : User) :
  wf d -> find_by_googleId (c_googleId p) d = None ->
  upsert_google_user p t d = inr (r, d') ->
  rows d' = rows d ++ [r] /\
  (forall x, x ∈ rows d -> id x < id r) /\
  googleId r = c_googleId p /\ createdAt r = t /\
  email r = c_email p /\ name r = c_name p /\ picture r = c_picture p.
Proof.
  intros Hwf Hnone Hup. unfold upsert_google_user, upsert in Hup.
  rewrite Hnone in Hup.
  destruct (violates _ _); [discriminate|]. injection Hup as <- <-. simpl.
  repeat split; try done.
  intros x Hx. pose proof (wf_seq d Hwf) as Hseq.
  rewrite Forall_forall in Hseq. specialize (Hseq x Hx). lia.
Qed.

Lemma first_login_creates_row_witness :
  upsert_google_user (mkCreate "g-2" None (Some "Bo") None) 9
    {| rows := [mkUser 4 "g-1" (Some "a@example.com") None None 1]; seq := 6 |}
    = inr (mkUser 7 "g-2" None (Some "Bo") None 9,
           {| rows := [mkUser 4 "g-1" (Some "a@example.com") None None 1;
                       mkUser 7 "g-2" None (Some "Bo") None 9];
              seq := 7 |}) /\
  (forall x, x ∈ [mkUser 4 "g-1" (Some "a@example.com") None None 1] -> id x < 7).
Proof.
  split; [reflexivity|].
  apply (first_login_creates_row (mkCreate "g-2" None (Some "Bo") None) 9
           {| rows := [mkUser 4 "g-1" (Some "a@example.com") None None 1]; seq := 6 |}
           {| rows := [mkUser 4 "g-1" (Some "a@example.com") None None 1;
                       mkUser 7 "g-2" None (Some "Bo") None 9];
              seq := 7 |}
           (mkUser 7 "g-2" None (Some "Bo") None 9)).
  - split; simpl; [apply NoDup_singleton..|].
    constructor; [simpl; lia|constructor].
  - reflexivity.
  - reflexivity.
Defined.




Lemma login_email_settled (p : UserCreateInput) (t : Z) (d d' : Db) (u : User) :
  wf d -> upsert_google_user p t d = inr (u, d') ->
  refreshed (c_email p) (email u) = email u /\
  refreshed (c_name p) (name u) = name u /\
  refreshed (c_picture p) (picture u) = picture u.
Proof.
  intros Hwf Hup.
  destruct (login_upsert_result _ _ _ _ _ Hwf Hup) as (_ & _ & _ & Hres).
  destruct (find_by_googleId (c_googleId p) d) as [r|].
  - destruct Hres as (_ & _ & _ & -> & -> & ->).
    by destruct (c_email p), (c_name p), (c_picture p).
  - subst u. simpl. by destruct (c_email p), (c_name p), (c_picture p).
Qed.



Lemma upsert_update_own_key (g : string) (e n p : option string)
    (c : UserCreateInput) (t : Z) (d : Db) :
  upsert g {| u_googleId := Some g; u_email := e; u_name := n; u_picture := p |} c t d =
  upsert g {| u_googleId := None; u_email := e; u_name := n; u_picture := p |} c t d.
Proof.
  unfold upsert.
  destruct (find_by_googleId g d) as [r|] eqn:Hf; [|done].
  unfold find_by_googleId in Hf. apply find_some in Hf as [_ Hg].
  apply bool_decide_eq_true in Hg.
  assert (Heq : apply_update
            {| u_googleId := Some g; u_email := e; u_name := n; u_picture := p |} r =
          apply_update
            {| u_googleId := None; u_email := e; u_name := n; u_picture := p |} r).
  { unfold apply_update. simpl. by rewrite Hg. }
  by rewrite Heq.
Qed.

(** X5.  The upsert of [/dev-login], whose [update] is the whole of
    [testUser] with its [googleId], does on every table and at every time
    what the login upsert does for the payload [testUser]. *)
Theorem dev_login_upsert_is_a_login_upsert (t : Z) (d : Db) :
  upsert_test_user t d = upsert_google_user testUser t d.
Proof.
  unfold upsert_test_user, upsert_google_user.
  generalize (c_googleId testUser) (c_email testUser) (c_name testUser)
             (c_picture testUser).
  intros g e n p. apply upsert_update_own_key.
Qed.

Global Instance newer_first_total : Total newer_first.
Proof. intros a b. unfold newer_first. lia. Qed.

Global Instance newer_first_trans : Transitive newer_first.
Proof. intros a b c. unfold newer_first. lia. Qed.

(** X6.  The list the dashboard shows holds every row of the table, each
    as often as the table does, and is ordered newest first: no entry is
    older than one that comes after it. *)
Theorem findMany_lists_all_newest_first (d : Db) :
  findMany d ≡ₚ rows d /\
  (forall (i j : nat) (a b : User),
      (i < j)%nat -> findMany d !! i = Some a -> findMany d !! j = Some b ->
      createdAt b <= createdAt a).
Proof.
  split; [apply merge_sort_Permutation|].
  unfold findMany.
  generalize (StronglySorted_merge_sort newer_first (rows d)).
  generalize (merge_sort newer_first (rows d)). intros l Hs.
  induction Hs as [|x l Hs IH Hall]; intros i j a b Hij Hi Hj; [done|].
  destruct j as [|j]; [lia|]. simpl in Hj.
  destruct i as [|i]; simpl in Hi.
  - injection Hi as ->. rewrite Forall_forall in Hall.
    apply (Hall b). by eapply list_elem_of_lookup_2.
  - apply (IH i j); [lia|done|done].
Qed.

Lemma findMany_lists_all_newest_first_witness :
  createdAt (mkUser 1 "g-1" None None None 10)
  <= createdAt (mkUser 2 "g-2" None None None 20).
Proof.
  apply (proj2 (findMany_lists_all_newest_first
                  {| rows := [mkUser 1 "g-1" None None None 10;
                              mkUser 2 "g-2" None None None 20]; seq := 2 |})
           0%nat 1%nat); [lia|reflexivity|reflexivity].
Defined.

(** X7.  On a table that meets its constraints a login upsert is rejected
    exactly when a row of another external id holds the payload's email,
    and the rejection is then the violation of the email index; it is
    never rejected on [googleId]. *)
Theorem login_rejected_iff_email_taken (p : UserCreateInput) (t : Z) (d : Db) :
  wf d ->
  (email_taken p d <-> upsert_google_user p t d = inl (unique_violation "email")) /\
  (forall e, upsert_google_user p t d = inl e -> e = unique_violation "email").
Proof.
  intros Hwf.
  assert (Hfail : forall e, upsert_google_user p t d = inl e ->
                    e = unique_violation "email" /\ email_taken p d).
  { intros e Hup.
    destruct (upsert_google_user p t d) as [e'|[u d']] eqn:Hup'; [|discriminate].
    injection Hup as ->.
    assert (Htaken : email_taken p d).
    { destruct (c_email p) as [v|] eqn:Hv.
      - destruct (existsb (fun x => negb (bool_decide (googleId x = c_googleId p))
                                   && bool_decide (email x = Some v)) (rows d)) eqn:Hex.
        + apply existsb_exists in Hex as (x & Hx & Hb).
          apply andb_true_iff in Hb as [Hg He].
          apply negb_true_iff, bool_decide_eq_false in Hg.
          apply bool_decide_eq_true in He. apply list_elem_of_In in Hx.
          by exists x, v.
        + exfalso. apply existsb_false_all in Hex. rewrite Forall_forall in Hex.
          destruct (login_upsert_succeeds p t d Hwf) as (u & d' & Hok); [|congruence].
          intros x w Hx Hne Hw Hxe. rewrite Hv in Hw. injection Hw as <-.
          specialize (Hex x Hx). apply andb_false_iff in Hex as [Hg|He].
          * apply negb_false_iff, bool_decide_eq_true in Hg. done.
          * by apply bool_decide_eq_false in He.
      - exfalso.
        destruct (login_upsert_succeeds p t d Hwf) as (u & d' & Hok); [|congruence].
        intros x w _ _ Hw. rewrite Hv in Hw. discriminate. }
    split; [|done].
    unfold upsert_google_user, upsert in Hup'.
    destruct (find_by_googleId (c_googleId p) d) as [r|] eqn:Hfind.
    - unfold find_by_googleId in Hfind.
      apply find_split in Hfind as (l1 & l2 & Hrows & Hr & _).
      apply bool_decide_eq_true in Hr.
      pose proof (wf_id d Hwf) as Hid. pose proof (wf_googleId d Hwf) as Hgid.
      rewrite Hrows in Hid, Hgid, Hup'. rewrite others_split in Hup' by done.
      unfold violates in Hup'.
      destruct (existsb _ (l1 ++ l2)) eqn:Hex.
      + exfalso. apply existsb_exists in Hex as (x & Hx & Hs).
        unfold same_googleId in Hs. apply bool_decide_eq_true in Hs. simpl in Hs.
        apply list_elem_of_In in Hx.
        rewrite fmap_app, fmap_cons in Hgid.
        apply NoDup_app in Hgid as (_ & H12 & H2). apply NoDup_cons in H2 as [H2 _].
        apply elem_of_app in Hx as [Hx|Hx].
        * apply (H12 (googleId x)); [by apply list_elem_of_fmap_2|]. rewrite Hs. by left.
        * apply H2. rewrite <- Hs. by apply list_elem_of_fmap_2.
      + destruct (existsb (same_email _) (l1 ++ l2)); simpl in Hup';
          [by injection Hup' as <-|discriminate].
    - apply find_none_all in Hfind. unfold violates in Hup'.
      destruct (existsb _ (rows d)) eqn:Hex.
      + exfalso. apply existsb_exists in Hex as (x & Hx & Hs).
        unfold same_googleId in Hs. simpl in Hs.
        rewrite Forall_forall in Hfind. apply list_elem_of_In in Hx.
        specialize (Hfind x Hx). congruence.
      + destruct (existsb (same_email _) (rows d)); simpl in Hup';
          [by injection Hup' as <-|discriminate]. }
  split; [split|].
  - intros (x & v & Hx & Hne & Hv & Hxe).
    destruct (upsert_google_user p t d) as [e|[u d']] eqn:Hup.
    + by destruct (Hfail e eq_refl) as [-> _].
    + exfalso.
      pose proof (upsert_wf _ _ _ _ _ _ _ Hwf Hup) as Hwf'.
      destruct (login_upsert_result _ _ _ _ _ Hwf Hup) as (Hg & Hin & Hoth & Hres).
      destruct (login_email_settled _ _ _ _ _ Hwf Hup) as (He & _).
      rewrite Hv in He. simpl in He.
      assert (Hx' : x ∈ rows d') by by apply Hoth.
      apply Hne. rewrite <- Hg. f_equal.
      destruct (list_elem_of_lookup_1 _ _ Hx') as [i Hi].
      destruct (list_elem_of_lookup_1 _ _ Hin) as [j Hj].
      assert (i = j) as ->.
      { eapply NoDup_omap_lookup; [apply (wf_email d' Hwf')|exact Hi|exact Hj| |].
        - rewrite Hxe. by eexists.
        - congruence. }
      congruence.
  - intros Hup. by destruct (Hfail _ Hup).
  - intros e Hup. by destruct (Hfail _ Hup).
Qed.

Lemma login_rejected_iff_email_taken_witness :
  upsert_google_user (mkCreate "g-2" (Some "a@example.com") None None) 3
    {| rows := [mkUser 1 "g-1" (Some "a@example.com") None None 1]; seq := 1 |}
  = inl (unique_violation "email").
Proof.
  assert (Hwf : wf {| rows := [mkUser 1 "g-1" (Some "a@example.com") None None 1];
                      seq := 1 |}).
  { split; simpl; [apply NoDup_singleton..|].
    constructor; [simpl; lia|constructor]. }
  apply (proj1 (proj1 (login_rejected_iff_email_taken
                         (mkCreate "g-2" (Some "a@example.com") None None) 3 _ Hwf))).
  exists (mkUser 1 "g-1" (Some "a@example.com") None None 1), "a@example.com".
  split; [apply list_elem_of_here|]. split; [discriminate|]. split; reflexivity.
Defined.

Lemma upsert_keeps_rows w u c t d r d' :
  wf d -> upsert w u c t d = inr (r, d') ->
  seq d <= seq d' /\ (length (rows d) <= length (rows d'))%nat /\
  forall x, x ∈ rows d ->
    exists y, y ∈ rows d' /\ id y = id x /\ createdAt y = createdAt x.
Proof.
  intros Hwf Hup.
  destruct (upsert_inr _ _ _ _ _ _ _ Hwf Hup)
    as [l1 l2 r0 Hrows _ -> _ ->| _ _ _ ->]; simpl.
  - split; [lia|]. split; [rewrite Hrows, !length_app; simpl; lia|].
    intros x Hx. rewrite Hrows in Hx.
    apply elem_of_app in Hx as [Hx|Hx].
    + exists x. split; [|done]. apply elem_of_app. by left.
    + apply elem_of_cons in Hx as [->|Hx].
      * exists (apply_update u r0). split; [|done].
        apply elem_of_app. right. apply list_elem_of_here.
      * exists x. split; [|done]. apply elem_of_app. right.
        by apply list_elem_of_further.
  - split; [lia|]. split; [rewrite length_app; simpl; lia|].
    intros x Hx. exists x. split; [|done]. apply elem_of_app. by left.
Qed.

(** X8.  The table only grows.  Over any sequence of upserts, accepted or
    rejected, on a table that meets its constraints: no row is removed,
    the AUTOINCREMENT counter never goes down, and every row that was
    there is still there under the same [id] and with the same
    [createdAt]. *)
Theorem rows_survive_with_id_and_createdAt (cs : list UpsertCall) (d : Db) :
  wf d ->
  seq d <= seq (run_calls cs d) /\
  (length (rows d) <= length (rows (run_calls cs d)))%nat /\
  forall x, x ∈ rows d ->
    exists y, y ∈ rows (run_calls cs d) /\ id y = id x /\ createdAt y = createdAt x.
Proof.
  revert d. induction cs as [|c cs IH]; intros d Hwf; simpl.
  - split; [lia|]. split; [lia|]. intros x Hx. by exists x.
  - destruct (IH (run_call c d) (run_call_wf c d Hwf)) as (Hs & Hl & Hr).
    assert (Hstep : seq d <= seq (run_call c d) /\
                    (length (rows d) <= length (rows (run_call c d)))%nat /\
                    forall x, x ∈ rows d ->
                      exists y, y ∈ rows (run_call c d) /\ id y = id x /\
                                createdAt y = createdAt x).
    { unfold run_call.
      destruct (upsert _ _ _ _ d) as [e|[r d']] eqn:Hup.
      - split; [lia|]. split; [lia|]. intros x Hx. by exists x.
      - by eapply upsert_keeps_rows. }
    destruct Hstep as (Hs1 & Hl1 & Hr1).
    split; [lia|]. split; [lia|].
    intros x Hx. destruct (Hr1 x Hx) as (y & Hy & Hid & Hcr).
    destruct (Hr y Hy) as (z & Hz & Hid' & Hcr').
    exists z. split; [done|]. split; congruence.
Qed.

Lemma rows_survive_with_id_and_createdAt_witness :
  1 <= seq (run_calls
              [login_call (mkCreate "g-1" (Some "new@example.com") (Some "Ann") None) 50;
               login_call (mkCreate "g-2" None None None) 60]
              {| rows := [mkUser 1 "g-1" (Some "a@example.com") None None 7]; seq := 1 |})
  /\ exists y,
       y ∈ rows (run_calls
              [login_call (mkCreate "g-1" (Some "new@example.com") (Some "Ann") None) 50;
               login_call (mkCreate "g-2" None None None) 60]
              {| rows := [mkUser 1 "g-1" (Some "a@example.com") None None 7]; seq := 1 |})
       /\ id y = 1 /\ createdAt y = 7.
Proof.
  destruct (rows_survive_with_id_and_createdAt
              [login_call (mkCreate "g-1" (Some "new@example.com") (Some "Ann") None) 50;
               login_call (mkCreate "g-2" None None None) 60]
              {| rows := [mkUser 1 "g-1" (Some "a@example.com") None None 7]; seq := 1 |})
    as (Hs & _ & Hr).
  - split; simpl; [apply NoDup_singleton..|].
    constructor; [simpl; lia|constructor].
  - split; [exact Hs|].
    apply (Hr (mkUser 1 "g-1" (Some "a@example.com") None None 7)).
    apply list_elem_of_here.
Defined.

(** X9.  A dev login always leaves the synthetic user with the fixed
    profile: whatever the row held before, after a successful
    [/dev-login] upsert the returned row has the external id
    [dev-google-123] and the email, name and (empty) picture of
    [testUser]. *)
Theorem dev_login_resets_the_synthetic_profile (t : Z) (d d' : Db) (u : User) :
  wf d -> upsert_test_user t d = inr (u, d') ->
  googleId u = "dev-google-123" /\ email u = Some "dev@example.com" /\
  name u = Some "Dev Tester" /\ picture u = Some "" /\
  rows_of "dev-google-123" d' = [u].
Proof.
  intros Hwf Hup. unfold upsert_test_user in Hup.
  rewrite upsert_update_own_key in Hup.
  change (upsert_google_user testUser t d = inr (u, d')) in Hup.
  pose proof (upsert_wf _ _ _ _ _ _ _ Hwf Hup) as Hwf'.
  destruct (login_upsert_result _ _ _ _ _ Hwf Hup) as (Hg & Hin & _ & _).
  destruct (login_email_settled _ _ _ _ _ Hwf Hup) as (He & Hn & Hp).
  simpl in Hg, He, Hn, Hp.
  repeat split; try done.
  rewrite <- Hg. by apply rows_of_unique.
Qed.

Lemma dev_login_resets_the_synthetic_profile_witness :
  googleId (mkUser 3 "dev-google-123" (Some "dev@example.com") (Some "Dev Tester")
              (Some "") 1) = "dev-google-123" /\
  email (mkUser 3 "dev-google-123" (Some "dev@example.com") (Some "Dev Tester")
           (Some "") 1) = Some "dev@example.com" /\
  name (mkUser 3 "dev-google-123" (Some "dev@example.com") (Some "Dev Tester")
          (Some "") 1) = Some "Dev Tester" /\
  picture (mkUser 3 "dev-google-123" (Some "dev@example.com") (Some "Dev Tester")
             (Some "") 1) = Some "" /\
  rows_of "dev-google-123"
    {| rows := [mkUser 3 "dev-google-123" (Some "dev@example.com") (Some "Dev Tester")
                  (Some "") 1]; seq := 3 |}
  = [mkUser 3 "dev-google-123" (Some "dev@example.com") (Some "Dev Tester") (Some "") 1].
Proof.
  apply (dev_login_resets_the_synthetic_profile 40
           {| rows := [mkUser 3 "dev-google-123" (Some "old@example.com") None
                         (Some "img") 1]; seq := 3 |}).
  - split; simpl; [apply NoDup_singleton..|].
    constructor; [simpl; lia|constructor].
  - reflexivity.
Defined.

End StoreMore.

(** ** Proofs: more on the routes *)
Module AppMore.
Import UserStore App StoreSpec AppSpec StoreFacts AppFacts MoreSpec StoreMore.
Local Open Scope list_scope.

Ltac use_answers :=
  repeat match goal with
         | H : ?l = _ |- context [?l] => tryif is_var l then fail else rewrite H
         end.

Ltac run_from_entry :=
  let St := fresh "St" in let HS := fresh "HS" in
  unfold entry;
  match goal with
  | |- context [router ?a ?b ?c ?d] => remember (router a b c d) as St eqn:HS
  end;
  cbv -[upsert findUnique findMany store_get store_put store_remove
        Z.add Z.eqb upsert_test_user upsert_google_user userData
        status_or_500 json_message page_message] in HS;
  split_on_stuck HS;
  cbn [provider accepts_json accepts_html]; use_answers;
  subst St; unfold untouched, error_response;
  cbn [db store user events sessionID session next_sid accepts_json accepts_html
       andb negb].

(** What [GET /dev-login] does from the router on. *)
Lemma dev_login_run (req : Request) d c fs st sf nsid sid sess u0 tl :
  method req = "GET" -> path req = "/dev-login" ->
  tl = [] \/ tl = [Log SESSION "Loading user from session"] ->
  let s0 := entry d c fs st sf nsid sid sess u0 tl in
  let S := router routes req (route_exit req) s0 in
  match fs with
  | Some e :: _ =>
      responses (events S) = [error_response req e] /\ untouched S s0
  | _ =>
      match upsert_test_user c d with
      | inl e => responses (events S) = [error_response req e] /\ untouched S s0
      | inr (u, d') =>
          db S = d' /\
          match sf with
          | Some e :: _ =>
              responses (events S) = [error_response req e] /\
              user S = None /\ store S = st
          | None :: Some e :: _ =>
              responses (events S) = [error_response req e] /\
              user S = None /\ store S = store_remove sid st
          | _ =>
              responses (events S) = [Redirect 302 "/dashboard"] /\
              user S = Some u /\ sessionID S = nsid /\
              store S = store_put nsid {| passport_user := Some (id u) |}
                          (store_remove sid st)
          end
      end
  end.
Proof.
  intros Hm Hp Htl. destruct req; simpl in Hm, Hp; subst.
  intros s0 S. subst s0 S.
  destruct Htl as [-> | ->]; run_from_entry.
  all: repeat split.
Qed.

(** What [GET /auth/google/callback] does from the router on. *)
Lemma callback_run (req : Request) d c fs st sf nsid sid sess u0 tl :
  method req = "GET" -> path req = "/auth/google/callback" ->
  tl = [] \/ tl = [Log SESSION "Loading user from session"] ->
  let s0 := entry d c fs st sf nsid sid sess u0 tl in
  let S := router routes req (route_exit req) s0 in
  match provider req with
  | Begin =>
      responses (events S) = [Redirect 302 provider_authorization_url] /\
      untouched S s0
  | Failed => responses (events S) = [Redirect 302 "/login"] /\ untouched S s0
  | Errored e => responses (events S) = [error_response req e] /\ untouched S s0
  | Granted p =>
      match fs with
      | Some e :: _ =>
          responses (events S) = [error_response req e] /\ untouched S s0
      | _ =>
          match upsert_google_user (userData p) c d with
          | inl e => responses (events S) = [error_response req e] /\ untouched S s0
          | inr (u, d') =>
              db S = d' /\
              match sf with
              | Some e :: _ =>
                  responses (events S) = [error_response req e] /\
                  user S = None /\ store S = st
              | None :: Some e :: _ =>
                  responses (events S) = [error_response req e] /\
                  user S = None /\ store S = store_remove sid st
              | None :: None :: Some e :: _ =>
                  responses (events S) = [error_response req e] /\
                  user S = Some u /\
                  store S = store_put nsid {| passport_user := Some (id u) |}
                              (store_remove sid st)
              | _ =>
                  responses (events S) = [Redirect 302 "/dashboard"] /\
                  user S = Some u /\ sessionID S = nsid /\
                  store_get nsid (store S) = Some {| passport_user := Some (id u) |}
              end
          end
      end
  end.
Proof.
  intros Hm Hp Htl. destruct req; simpl in Hm, Hp; subst.
  intros s0 S. subst s0 S.
  destruct Htl as [-> | ->]; run_from_entry.
  all: rewrite ?store_get_put; repeat split.
Qed.

(** What [GET /dashboard] does from the router on. *)
Lemma dashboard_run (req : Request) d c fs st sf nsid sid sess u0 tl :
  method req = "GET" -> path req = "/dashboard" ->
  tl = [] \/ tl = [Log SESSION "Loading user from session"] ->
  let s0 := entry d c fs st sf nsid sid sess u0 tl in
  let S := router routes req (route_exit req) s0 in
  untouched S s0 /\
  match u0 with
  | None => responses (events S) = [Redirect 302 "/login"]
  | Some _ =>
      match fs with
      | Some e :: _ => responses (events S) = [error_response req e]
      | _ => responses (events S) = [Render 200 "dashboard" "Dashboard" None (findMany d)]
      end
  end.
Proof.
  intros Hm Hp Htl. destruct req; simpl in Hm, Hp; subst.
  intros s0 S. subst s0 S.
  destruct Htl as [-> | ->]; run_from_entry.
  all: repeat split.
Qed.

(** What [GET /logout] does from the router on. *)
Lemma logout_run (req : Request) d c fs st sf nsid sid sess u0 tl :
  method req = "GET" -> path req = "/logout" ->
  tl = [] \/ tl = [Log SESSION "Loading user from session"] ->
  let s0 := entry d c fs st sf nsid sid sess u0 tl in
  let S := router routes req (route_exit req) s0 in
  db S = d /\ user S = None /\
  match sf with
  | Some e :: _ => responses (events S) = [error_response req e] /\ store S = st
  | None :: Some e :: _ =>
      responses (events S) = [error_response req e] /\
      store S = store_put sid empty_session st
  | _ =>
      responses (events S) = [Redirect 302 "/"] /\
      store S = store_remove sid (store_put sid empty_session st) /\
      session S = empty_session
  end.
Proof.
  intros Hm Hp Htl. destruct req; simpl in Hm, Hp; subst.
  intros s0 S. subst s0 S.
  destruct Htl as [-> | ->]; run_from_entry.
  all: repeat split.
Qed.

(** What the two public pages do from the router on. *)
Lemma public_run (req : Request) d c fs st sf nsid sid sess u0 tl :
  method req = "GET" ->
  tl = [] \/ tl = [Log SESSION "Loading user from session"] ->
  let s0 := entry d c fs st sf nsid sid sess u0 tl in
  let S := router routes req (route_exit req) s0 in
  (path req = "/" ->
   responses (events S) = [Render 200 "index" "OpenID Connect Demo" None []] /\
   untouched S s0) /\
  (path req = "/login" ->
   responses (events S) = [Render 200 "login" "Login" None []] /\ untouched S s0).
Proof.
  intros Hm Htl. destruct req; simpl in Hm; subst.
  intros s0 S. subst s0 S.
  split; intros Hp; simpl in Hp; subst.
  - destruct Htl as [-> | ->]; run_from_entry; repeat split.
  - destruct Htl as [-> | ->]; run_from_entry; repeat split.
Qed.

(** What [GET /auth/google] does from the router on: one response. *)
Lemma auth_google_run (req : Request) d c fs st sf nsid sid sess u0 tl :
  method req = "GET" -> path req = "/auth/google" ->
  tl = [] \/ tl = [Log SESSION "Loading user from session"] ->
  exists r,
    responses (events (router routes req (route_exit req)
                         (entry d c fs st sf nsid sid sess u0 tl))) = [r].
Proof.
  intros Hm Hp Htl. destruct req; simpl in Hm, Hp; subst.
  destruct Htl as [-> | ->]; run_from_entry; eexists; reflexivity.
Qed.

(** Session resolution, exactly. *)
Lemma resolve_exact env req s :
  handle env req s =
  match resolved req s with
  | inl (e, s') => error_handler e req (fun _ => halt) s'
  | inr s' => router routes req (route_exit req) s'
  end.
Proof.
  destruct s, req. unfold resolved, entry.
  cbn [sid_cookie store db db_faults clock store_faults next_sid].
  remember (handle _ _ _) as St eqn:HS.
  run_middleware HS; use_answers; cbn [passport_user tail]; use_answers;
    subst St; try reflexivity.
Qed.

Lemma error_handler_answers e req k s :
  responses (events (error_handler e req k s))
    = responses (events s) ++ [error_response req e] /\
  db (error_handler e req k s) = db s /\
  store (error_handler e req k s) = store s /\
  user (error_handler e req k s) = user s.
Proof.
  destruct s. unfold error_handler, error_response, then_, log, render, emit, responses.
  destruct (accepts_json req && negb (accepts_html req));
    cbn [events set_events db store user]; rewrite !omap_app; simpl;
    by rewrite app_nil_r.
Qed.

Lemma error_response_is_no_redirect req e code loc :
  error_response req e <> Redirect code loc.
Proof. unfold error_response. by destruct (accepts_json req && negb (accepts_html req)). Qed.

End AppMore.

(** ** Proofs: requests from end to end *)
Module Journeys.
Import UserStore App StoreSpec AppSpec StoreFacts AppFacts MoreSpec StoreMore AppMore.
Local Open Scope list_scope.

Lemma store_get_remove sid m : store_get sid (store_remove sid m) = None.
Proof. apply lookup_delete_eq. Qed.

Lemma store_get_remove_ne sid sid' m :
  sid <> sid' -> store_get sid (store_remove sid' m) = store_get sid m.
Proof. intros H. unfold store_get, store_remove. by rewrite lookup_delete_ne. Qed.

Lemma store_get_put_ne sid sid' data m :
  sid <> sid' -> store_get sid (store_put sid' data m) = store_get sid m.
Proof. intros H. unfold store_get, store_put. by rewrite lookup_insert_ne. Qed.

Lemma resolved_tail_ok req s s' :
  resolved req s = inr s' ->
  exists d c fs st sf nsid sid sess u tl,
    s' = entry d c fs st sf nsid sid sess u tl /\
    (tl = [] \/ tl = [Log SESSION "Loading user from session"]) /\
    d = db s /\ st = store s /\ c = clock s /\ sf = store_faults s.
Proof.
  unfold resolved.
  destruct (sid_cookie req) as [sid|].
  2:{ intros [= <-]. repeat eexists. by left. }
  destruct (store_get sid (store s)) as [data|].
  2:{ intros [= <-]. repeat eexists. by left. }
  destruct (passport_user data) as [ref|].
  2:{ intros [= <-]. repeat eexists. by left. }
  destruct (db_faults s) as [|[e|] rest]; intros [= <-]; repeat eexists; by right.
Qed.

Ltac answered H :=
  cbv zeta in H; unfold entry in *;
  first [rewrite H | rewrite (proj1 H)]; by eexists.

(** X10.  Every GET request to a registered path is answered exactly
    once, whatever the cookie, the provider's answer and the faults of the
    database and of the session store: no run of a handler ends without a
    response and none sends two. *)
Theorem registered_route_answers_once (env : Env) (req : Request) (s : State) :
  method req = "GET" -> path req ∈ registered ->
  exists r, responses (events (handle env req s)) = [r].
Proof.
  intros Hm Hp. rewrite resolve_exact.
  destruct (resolved req s) as [[e s']|s'] eqn:Hres.
  - destruct (error_handler_answers e req (fun _ => halt) s') as (-> & _).
    unfold resolved in Hres.
    destruct (sid_cookie req) as [sid|]; [|discriminate].
    destruct (store_get sid (store s)) as [data|]; [|discriminate].
    destruct (passport_user data) as [ref|]; [|discriminate].
    destruct (db_faults s) as [|[e'|] rest]; [discriminate| |discriminate].
    injection Hres as <- <-. by eexists.
  - destruct (resolved_tail_ok req s s' Hres)
      as (d & c & fs & st & sf & nsid & sid & sess & u & tl & -> & Htl & _).
    unfold registered in Hp.
    repeat (apply elem_of_cons in Hp as [Hp|Hp]); [..|by apply elem_of_nil in Hp].
    + destruct (public_run req d c fs st sf nsid sid sess u tl Hm Htl) as [H _].
      destruct (H Hp) as [-> _]. by eexists.
    + destruct (public_run req d c fs st sf nsid sid sess u tl Hm Htl) as [_ H].
      destruct (H Hp) as [-> _]. by eexists.
    + by apply auth_google_run.
    + pose proof (callback_run req d c fs st sf nsid sid sess u tl Hm Hp Htl) as H.
      cbv zeta in H.
      destruct (provider req); [answered H..|].
      destruct fs as [|[?|] ?]; [|answered H|];
        (destruct (upsert_google_user _ _ _) as [?|[? ?]]; [answered H|]);
        destruct H as [_ H];
        destruct sf as [|[?|] [|[?|] [|[?|] ?]]]; answered H.
    + destruct (dashboard_run req d c fs st sf nsid sid sess u tl Hm Hp Htl) as [_ H].
      destruct u; [|answered H].
      destruct fs as [|[?|] ?]; answered H.
    + destruct (logout_run req d c fs st sf nsid sid sess u tl Hm Hp Htl) as (_ & _ & H).
      destruct sf as [|[?|] [|[?|] ?]]; answered H.
    + pose proof (dev_login_run req d c fs st sf nsid sid sess u tl Hm Hp Htl) as H.
      cbv zeta in H.
      destruct fs as [|[?|] ?]; [|answered H|];
        (destruct (upsert_test_user _ _) as [?|[? ?]]; [answered H|]);
        destruct H as [_ H];
        destruct sf as [|[?|] [|[?|] ?]]; answered H.
Qed.

Lemma registered_route_answers_once_witness :
  exists r,
    responses (events (handle production (get "/logout" (Some 3) Begin) initial)) = [r].
Proof.
  apply (registered_route_answers_once production (get "/logout" (Some 3) Begin) initial).
  - reflexivity.
  - unfold registered. simpl. do 5 apply list_elem_of_further. apply list_elem_of_here.
Defined.

Lemma resolved_anonymous req s :
  principal req s = None ->
  exists nsid sid sess,
    resolved req s =
    inr (entry (db s) (clock s) (db_faults s) (store s) (store_faults s)
           nsid sid sess None []).
Proof.
  unfold principal, resolved.
  destruct (sid_cookie req) as [sid|]; [|by repeat eexists].
  destruct (store_get sid (store s)) as [data|]; [|by repeat eexists].
  destruct (passport_user data); [discriminate|by repeat eexists].
Qed.

Lemma resolved_fault_answers req s e s' :
  resolved req s = inl (e, s') ->
  responses (events s') = [] /\ db s' = db s /\ store s' = store s.
Proof.
  unfold resolved.
  destruct (sid_cookie req) as [sid|]; [|discriminate].
  destruct (store_get sid (store s)) as [data|]; [|discriminate].
  destruct (passport_user data) as [ref|]; [|discriminate].
  destruct (db_faults s) as [|[e'|] rest]; [discriminate| |discriminate].
  by intros [= <- <-].
Qed.

Ltac not_a_login H Hresp :=
  cbv zeta in H; unfold entry in *;
  first [rewrite H in Hresp | rewrite (proj1 H) in Hresp];
  injection Hresp as Hresp;
  first [discriminate Hresp | by apply error_response_is_no_redirect in Hresp].

(** A login that ended in the redirect to the dashboard: the user it
    logged in is a row of the table, and the session store holds that
    row's id under the request's session id. *)
Lemma login_success env req s :
  wf (db s) -> method req = "GET" ->
  path req = "/auth/google/callback" \/ path req = "/dev-login" ->
  responses (events (handle env req s)) = [Redirect 302 "/dashboard"] ->
  exists u,
    user (handle env req s) = Some u /\
    store_get (sessionID (handle env req s)) (store (handle env req s))
      = Some {| passport_user := Some (id u) |} /\
    wf (db (handle env req s)) /\ u ∈ rows (db (handle env req s)).
Proof.
  intros Hwf Hm Hp. rewrite resolve_exact.
  destruct (resolved req s) as [[e s']|s'] eqn:Hres.
  - destruct (error_handler_answers e req (fun _ => halt) s') as (-> & _).
    destruct (resolved_fault_answers _ _ _ _ Hres) as (-> & _). simpl.
    intros [= H]. by apply error_response_is_no_redirect in H.
  - destruct (resolved_tail_ok req s s' Hres)
      as (d & c & fs & st & sf & nsid & sid & sess & u & tl & -> & Htl & -> & _).
    intros Hresp. destruct Hp as [Hp|Hp].
    + pose proof (callback_run req (db s) c fs st sf nsid sid sess u tl Hm Hp Htl) as H.
      cbv zeta in H.
      destruct (provider req); [not_a_login H Hresp..|].
      destruct fs as [|[?|] ?]; [|not_a_login H Hresp|];
        (destruct (upsert_google_user _ _ _) as [?|[u1 d1]] eqn:Hup;
           [not_a_login H Hresp|]);
        destruct H as [Hdb H];
        (destruct sf as [|[?|] [|[?|] [|[?|] ?]]]; try not_a_login H Hresp);
        destruct H as (_ & Hu & Hsid & Hst); unfold entry in *;
        exists u1; rewrite Hu, Hsid, Hst, Hdb;
        (split; [done|]; split; [done|]; split;
           [by eapply upsert_wf|by eapply upsert_returns_member]).
    + pose proof (dev_login_run req (db s) c fs st sf nsid sid sess u tl Hm Hp Htl) as H.
      cbv zeta in H.
      destruct fs as [|[?|] ?]; [|not_a_login H Hresp|];
        (destruct (upsert_test_user _ _) as [?|[u1 d1]] eqn:Hup;
           [not_a_login H Hresp|]);
        destruct H as [Hdb H];
        (destruct sf as [|[?|] [|[?|] ?]]; try not_a_login H Hresp);
        destruct H as (_ & Hu & Hsid & Hst); unfold entry in *;
        exists u1; rewrite Hu, Hsid, Hst, Hdb, store_get_put;
        (split; [done|]; split; [done|]; split;
           [by eapply upsert_wf|by eapply upsert_returns_member]).
Qed.

(** X11.  Login, then dashboard.  After a provider login or a dev login
    that was answered by the redirect to [/dashboard], a request for
    [/dashboard] that carries the session id of the login, and finds the
    table and the session store as the login left them and the database
    answering, is served the dashboard (status 200) with every user,
    newest first, and runs as the user who logged in. *)
Theorem login_then_dashboard (env : Env) (req req2 : Request) (s s2 : State) :
  wf (db s) -> method req = "GET" ->
  path req = "/auth/google/callback" \/ path req = "/dev-login" ->
  responses (events (handle env req s)) = [Redirect 302 "/dashboard"] ->
  method req2 = "GET" -> path req2 = "/dashboard" ->
  sid_cookie req2 = Some (sessionID (handle env req s)) ->
  db s2 = db (handle env req s) -> store s2 = store (handle env req s) ->
  db_faults s2 = [] ->
  responses (events (handle env req2 s2))
    = [Render 200 "dashboard" "Dashboard" None (findMany (db s2))] /\
  is_Some (user (handle env req s)) /\
  user (handle env req2 s2) = user (handle env req s).
Proof.
  intros Hwf Hm Hp Hresp Hm2 Hp2 Hc Hdb Hst Hf.
  destruct (login_success env req s Hwf Hm Hp Hresp) as (u & Hu & Hget & Hwf' & Hin).
  rewrite Hu. rewrite (resolve_exact env req2 s2). unfold resolved.
  rewrite Hc, Hst, Hget, Hf, Hdb. cbn [passport_user tail].
  rewrite (findUnique_unique _ u Hwf' Hin).
  destruct (dashboard_run req2 (db (handle env req s)) (clock s2) [] (store (handle env req s))
              (store_faults s2) (next_sid s2) (sessionID (handle env req s))
              {| passport_user := Some (id u) |} (Some u)
              [Log SESSION "Loading user from session"] Hm2 Hp2)
    as [(_ & _ & Hu2 & _) Hr]; [by right|].
  cbv zeta in Hr, Hu2. by rewrite Hr, Hu2.
Qed.

Lemma login_then_dashboard_witness :
  responses (events (handle production (get "/dashboard" (Some 2) Begin)
                       (handle production (get "/dev-login" None Begin) initial)))
    = [Render 200 "dashboard" "Dashboard" None
         (findMany (db (handle production (get "/dev-login" None Begin) initial)))] /\
  is_Some (user (handle production (get "/dev-login" None Begin) initial)) /\
  user (handle production (get "/dashboard" (Some 2) Begin)
          (handle production (get "/dev-login" None Begin) initial))
    = user (handle production (get "/dev-login" None Begin) initial).
Proof.
  apply (login_then_dashboard production (get "/dev-login" None Begin)
           (get "/dashboard" (Some 2) Begin) initial
           (handle production (get "/dev-login" None Begin) initial)).
  - exact wf_empty.
  - reflexivity.
  - right. reflexivity.
  - vm_compute. reflexivity.
  - reflexivity.
  - reflexivity.
  - vm_compute. reflexivity.
  - reflexivity.
  - reflexivity.
  - vm_compute. reflexivity.
Defined.

(** X12.  A provider login whose user cannot be stored opens no session.
    For a request without a principal reference whose handshake yielded a
    profile: when the database faults on the upsert, or rejects it, the
    answer is the error boundary's answer to that error; nothing is handed
    to the session store, and table, session store and [req.user] are as
    before. *)
Theorem login_without_row_opens_no_session
    (env : Env) (req : Request) (s : State) (p : Profile) (e : Error) :
  method req = "GET" -> path req = "/auth/google/callback" ->
  provider req = Granted p -> principal req s = None ->
  head (db_faults s) = Some (Some e) \/
  (db_answers s /\ upsert_google_user (userData p) (clock s) (db s) = inl e) ->
  responses (events (handle env req s)) = [error_response req e] /\
  existsb touches_store (events (handle env req s)) = false /\
  db (handle env req s) = db s /\ store (handle env req s) = store s /\
  user (handle env req s) = None.
Proof.
  intros Hm Hp Hpr Hanon Hfail. rewrite resolve_exact.
  destruct (resolved_anonymous req s Hanon) as (nsid & sid & sess & ->).
  pose proof (callback_run req (db s) (clock s) (db_faults s) (store s) (store_faults s)
                nsid sid sess None [] Hm Hp (or_introl eq_refl)) as H.
  cbv zeta in H. rewrite Hpr in H. unfold untouched, db_answers in *.
  destruct Hfail as [Hf|[Hf Hup]].
  - destruct (db_faults s) as [|[e'|] rest]; simpl in Hf; try discriminate.
    injection Hf as ->. unfold entry in *. simpl in H. tauto.
  - rewrite Hup in H.
    destruct (db_faults s) as [|[e'|] rest]; [|done|]; unfold entry in *;
      simpl in H; tauto.
Qed.

Lemma login_without_row_opens_no_session_witness :
  responses (events (handle production
      (get "/auth/google/callback" None
         (Granted (mkProfile "g-2" (Some ["dev@example.com"]) None None)))
      (handle production (get "/dev-login" None Begin) initial)))
  = [error_response
       (get "/auth/google/callback" None
          (Granted (mkProfile "g-2" (Some ["dev@example.com"]) None None)))
       (unique_violation "email")].
Proof.
  apply (login_without_row_opens_no_session production
           (get "/auth/google/callback" None
              (Granted (mkProfile "g-2" (Some ["dev@example.com"]) None None)))
           (handle production (get "/dev-login" None Begin) initial)
           (mkProfile "g-2" (Some ["dev@example.com"]) None None)
           (unique_violation "email")).
  - reflexivity.
  - reflexivity.
  - reflexivity.
  - reflexivity.
  - right. split; [vm_compute; exact I|vm_compute; reflexivity].
Defined.

(** X13.  A provider login whose user was stored is decided by the
    session store.  For a request without a principal reference whose
    handshake yielded a profile and whose upsert went through: the table
    holds the upserted row, and the answer is the redirect to
    [/dashboard] when none of the three calls to the session store fails,
    and the error boundary's answer to the first failure otherwise, never
    the redirect. *)
Theorem login_is_decided_by_the_session_store
    (env : Env) (req : Request) (s : State) (p : Profile) (u : User) (d' : Db) :
  method req = "GET" -> path req = "/auth/google/callback" ->
  provider req = Granted p -> principal req s = None -> db_answers s ->
  upsert_google_user (userData p) (clock s) (db s) = inr (u, d') ->
  db (handle env req s) = d' /\
  responses (events (handle env req s)) =
    [match first_store_fault (store_faults s) with
     | Some e => error_response req e
     | None => Redirect 302 "/dashboard"
     end].
Proof.
  intros Hm Hp Hpr Hanon Hdb Hup. rewrite resolve_exact.
  destruct (resolved_anonymous req s Hanon) as (nsid & sid & sess & ->).
  pose proof (callback_run req (db s) (clock s) (db_faults s) (store s) (store_faults s)
                nsid sid sess None [] Hm Hp (or_introl eq_refl)) as H.
  cbv zeta in H. rewrite Hpr, Hup in H. unfold db_answers, first_store_fault in *.
  assert (H' : db (router routes req (route_exit req)
                     (entry (db s) (clock s) (db_faults s) (store s) (store_faults s)
                        nsid sid sess None [])) = d' /\
               match store_faults s with
               | Some e :: _ | None :: Some e :: _ | None :: None :: Some e :: _ =>
                   responses (events (router routes req (route_exit req)
                     (entry (db s) (clock s) (db_faults s) (store s) (store_faults s)
                        nsid sid sess None []))) = [error_response req e]
               | _ =>
                   responses (events (router routes req (route_exit req)
                     (entry (db s) (clock s) (db_faults s) (store s) (store_faults s)
                        nsid sid sess None []))) = [Redirect 302 "/dashboard"]
               end).
  { destruct (db_faults s) as [|[e'|] rest]; [|done|];
      (destruct H as [Hd H]; split; [done|]);
      destruct (store_faults s) as [|[?|] [|[?|] [|[?|] ?]]]; tauto. }
  destruct H' as [Hd H']. split; [done|].
  destruct (store_faults s) as [|[?|] [|[?|] [|[?|] ?]]]; by rewrite H'.
Qed.

Lemma login_is_decided_by_the_session_store_witness :
  db (handle production
        (get "/auth/google/callback" None
           (Granted (mkProfile "g-1" (Some ["a@example.com"]) None None)))
        (set_store_faults [None; Some (mkError (Some 503) "store down")] initial))
  = {| rows := [mkUser 1 "g-1" (Some "a@example.com") None None 0]; seq := 1 |} /\
  responses (events (handle production
        (get "/auth/google/callback" None
           (Granted (mkProfile "g-1" (Some ["a@example.com"]) None None)))
        (set_store_faults [None; Some (mkError (Some 503) "store down")] initial)))
  = [Render 503 "error" "Erro" (Some "store down") []].
Proof.
  apply (login_is_decided_by_the_session_store production
           (get "/auth/google/callback" None
              (Granted (mkProfile "g-1" (Some ["a@example.com"]) None None)))
           (set_store_faults [None; Some (mkError (Some 503) "store down")] initial)
           (mkProfile "g-1" (Some ["a@example.com"]) None None)
           (mkUser 1 "g-1" (Some "a@example.com") None None 0)).
  - reflexivity.
  - reflexivity.
  - reflexivity.
  - reflexivity.
  - exact I.
  - reflexivity.
Defined.

Lemma resolved_session req s sid :
  sid_cookie req = Some sid -> resolves req s ->
  exists fs nsid sid0 sess u tl,
    resolved req s =
    inr (entry (db s) (clock s) fs (store s) (store_faults s) nsid sid0 sess u tl) /\
    (tl = [] \/ tl = [Log SESSION "Loading user from session"]) /\
    (sid0 = sid \/ store_get sid (store s) = None).
Proof.
  intros Hc Hr. unfold resolves, principal, db_answers, resolved in *. rewrite Hc in *.
  destruct (store_get sid (store s)) as [data|].
  - destruct (passport_user data) as [ref|].
    + destruct (db_faults s) as [|[e|] rest]; [|done|];
        (eexists _, _, _, _, _, _; split; [reflexivity|]; split; [by right|by left]).
    + eexists _, _, _, _, _, _. split; [reflexivity|]. split; by left.
  - eexists _, _, _, _, _, _. split; [reflexivity|]. split; [by left|by right].
Qed.

Lemma logout_forgets_session (env : Env) (req : Request) (s : State) (sid : Z) :
  method req = "GET" -> path req = "/logout" ->
  sid_cookie req = Some sid -> resolves req s ->
  responses (events (handle env req s)) = [Redirect 302 "/"] ->
  store_get sid (store (handle env req s)) = None.
Proof.
  intros Hm Hp Hc Hr. rewrite resolve_exact.
  destruct (resolved_session req s sid Hc Hr)
    as (fs & nsid & sid0 & sess & u & tl & -> & Htl & Hsid).
  destruct (logout_run req (db s) (clock s) fs (store s) (store_faults s) nsid sid0
              sess u tl Hm Hp Htl) as (_ & _ & H).
  cbv zeta in H.
  assert (Hgone : store_get sid (store_remove sid0 (store_put sid0 empty_session (store s)))
                  = None).
  { destruct Hsid as [->|Hnone]; [apply store_get_remove|].
    destruct (decide (sid = sid0)) as [->|Hne]; [apply store_get_remove|].
    by rewrite store_get_remove_ne, store_get_put_ne. }
  destruct (store_faults s) as [|[?|] [|[?|] ?]];
    destruct H as [Hresp Hst]; rewrite Hresp;
    first [ intros Heq; injection Heq as Heq;
            by apply error_response_is_no_redirect in Heq
          | intros _; destruct Hst as [-> _]; exact Hgone ].
Qed.

(** X14.  Logout.  A request to [/logout] whose session resolution raised
    no fault never touches the user table and ends without [req.user].
    When it is answered by the redirect to [/], the session store holds
    nothing under the session id of the request's cookie; it is answered
    so whenever the session store does not fail; and when the store
    fails, the answer is the error boundary's, not the redirect. *)
Theorem logout_ends_session (env : Env) (req : Request) (s : State) (sid : Z) :
  method req = "GET" -> path req = "/logout" ->
  sid_cookie req = Some sid -> resolves req s ->
  db (handle env req s) = db s /\ user (handle env req s) = None /\
  (responses (events (handle env req s)) = [Redirect 302 "/"] ->
   store_get sid (store (handle env req s)) = None) /\
  responses (events (handle env req s)) =
    [match store_faults s with
     | Some e :: _ | None :: Some e :: _ => error_response req e
     | _ => Redirect 302 "/"
     end].
Proof.
  intros Hm Hp Hc Hr.
  pose proof (logout_forgets_session env req s sid Hm Hp Hc Hr) as Hgone.
  revert Hgone. rewrite resolve_exact.
  destruct (resolved_session req s sid Hc Hr)
    as (fs & nsid & sid0 & sess & u & tl & -> & Htl & _).
  destruct (logout_run req (db s) (clock s) fs (store s) (store_faults s) nsid sid0
              sess u tl Hm Hp Htl) as (Hd & Hu & H).
  cbv zeta in Hd, Hu, H. intros Hgone.
  split; [done|]. split; [done|]. split; [exact Hgone|].
  destruct (store_faults s) as [|[?|] [|[?|] ?]]; by destruct H as [-> _].
Qed.

Lemma logout_ends_session_witness :
  db (handle production (get "/logout" (Some 2) Begin)
        (handle production (get "/dev-login" None Begin) initial))
    = db (handle production (get "/dev-login" None Begin) initial) /\
  user (handle production (get "/logout" (Some 2) Begin)
          (handle production (get "/dev-login" None Begin) initial)) = None /\
  (responses (events (handle production (get "/logout" (Some 2) Begin)
                        (handle production (get "/dev-login" None Begin) initial)))
     = [Redirect 302 "/"] ->
   store_get 2 (store (handle production (get "/logout" (Some 2) Begin)
                         (handle production (get "/dev-login" None Begin) initial)))
     = None) /\
  responses (events (handle production (get "/logout" (Some 2) Begin)
                       (handle production (get "/dev-login" None Begin) initial)))
    = [Redirect 302 "/"].
Proof.
  apply (logout_ends_session production (get "/logout" (Some 2) Begin)
           (handle production (get "/dev-login" None Begin) initial) 2).
  - reflexivity.
  - reflexivity.
  - reflexivity.
  - vm_compute. exact I.
Defined.

(** X15.  Logout, then dashboard.  After a logout answered by the redirect
    to [/], a request for [/dashboard] that carries the same cookie and
    finds the session store as the logout left it is sent to [/login]. *)
Theorem logout_then_dashboard
    (env : Env) (req req2 : Request) (s s2 : State) (sid : Z) :
  method req = "GET" -> path req = "/logout" ->
  sid_cookie req = Some sid -> resolves req s ->
  responses (events (handle env req s)) = [Redirect 302 "/"] ->
  method req2 = "GET" -> path req2 = "/dashboard" -> sid_cookie req2 = Some sid ->
  store s2 = store (handle env req s) ->
  responses (events (handle env req2 s2)) = [Redirect 302 "/login"] /\
  user (handle env req2 s2) = None.
Proof.
  intros Hm Hp Hc Hr Hresp Hm2 Hp2 Hc2 Hst.
  pose proof (logout_forgets_session env req s sid Hm Hp Hc Hr Hresp) as Hgone.
  assert (Hanon : principal req2 s2 = None).
  { unfold principal. by rewrite Hc2, Hst, Hgone. }
  rewrite resolve_exact.
  destruct (resolved_anonymous req2 s2 Hanon) as (nsid & sid0 & sess & ->).
  destruct (dashboard_run req2 (db s2) (clock s2) (db_faults s2) (store s2)
              (store_faults s2) nsid sid0 sess None [] Hm2 Hp2 (or_introl eq_refl))
    as [(_ & _ & Hu & _) H].
  cbv zeta in H, Hu. by rewrite H, Hu.
Qed.

Lemma logout_then_dashboard_witness :
  responses (events (handle production (get "/dashboard" (Some 2) Begin)
    (handle production (get "/logout" (Some 2) Begin)
       (handle production (get "/dev-login" None Begin) initial))))
  = [Redirect 302 "/login"] /\
  user (handle production (get "/dashboard" (Some 2) Begin)
    (handle production (get "/logout" (Some 2) Begin)
       (handle production (get "/dev-login" None Begin) initial))) = None.
Proof.
  apply (logout_then_dashboard production (get "/logout" (Some 2) Begin)
           (get "/dashboard" (Some 2) Begin)
           (handle production (get "/dev-login" None Begin) initial)
           (handle production (get "/logout" (Some 2) Begin)
              (handle production (get "/dev-login" None Begin) initial)) 2).
  - reflexivity.
  - reflexivity.
  - reflexivity.
  - vm_compute. exact I.
  - vm_compute. reflexivity.
  - reflexivity.
  - reflexivity.
  - reflexivity.
  - reflexivity.
Defined.




(** X17.  The dashboard for a logged-in user.  When the cookie's session
    names a user the table holds and the database answered the lookup,
    the request runs as that user and changes neither table nor session
    store; it is served the dashboard (status 200) with every user, newest
    first, unless the database faults on the listing, and then the answer
    is the error boundary's, not a 200. *)
Theorem dashboard_for_logged_in_user
    (env : Env) (req : Request) (s : State) (ref : Z) (u : User) :
  method req = "GET" -> path req = "/dashboard" ->
  principal req s = Some ref -> findUnique ref (db s) = Some u -> db_answers s ->
  responses (events (handle env req s)) =
    [match db_faults s !! 1%nat with
     | Some (Some e) => error_response req e
     | _ => Render 200 "dashboard" "Dashboard" None (findMany (db s))
     end] /\
  user (handle env req s) = Some u /\
  db (handle env req s) = db s /\ store (handle env req s) = store s.
Proof.
  intros Hm Hp Hpr Hfind Hdb. rewrite resolve_exact.
  unfold principal, resolved, db_answers in *.
  destruct (sid_cookie req) as [sid|]; [|discriminate].
  destruct (store_get sid (store s)) as [data|]; [|discriminate].
  rewrite Hpr, Hfind.
  assert (Hgo : forall fs,
    responses (events (router routes req (route_exit req)
      (entry (db s) (clock s) fs (store s) (store_faults s) (next_sid s) sid data
         (Some u) [Log SESSION "Loading user from session"]))) =
      [match fs with
       | Some e :: _ => error_response req e
       | _ => Render 200 "dashboard" "Dashboard" None (findMany (db s))
       end] /\
    user (router routes req (route_exit req)
      (entry (db s) (clock s) fs (store s) (store_faults s) (next_sid s) sid data
         (Some u) [Log SESSION "Loading user from session"])) = Some u /\
    db (router routes req (route_exit req)
      (entry (db s) (clock s) fs (store s) (store_faults s) (next_sid s) sid data
         (Some u) [Log SESSION "Loading user from session"])) = db s /\
    store (router routes req (route_exit req)
      (entry (db s) (clock s) fs (store s) (store_faults s) (next_sid s) sid data
         (Some u) [Log SESSION "Loading user from session"])) = store s).
  { intros fs.
    destruct (dashboard_run req (db s) (clock s) fs (store s) (store_faults s)
                (next_sid s) sid data (Some u)
                [Log SESSION "Loading user from session"] Hm Hp (or_intror eq_refl))
      as [(Hd & Hst & Hu & _) H].
    cbv zeta in H, Hd, Hst, Hu. split; [|done].
    destruct fs as [|[?|] ?]; by rewrite H. }
  destruct (db_faults s) as [|[e|] rest]; [|done|].
  - apply (Hgo []).
  - cbn [tail]. destruct (Hgo rest) as (-> & ? & ? & ?).
    split; [|done]. by destruct rest as [|[?|] ?].
Qed.

Lemma dashboard_for_logged_in_user_witness :
  responses (events (handle production
      {| method := "GET"; path := "/dashboard"; sid_cookie := Some 2;
         accepts_json := true; accepts_html := false; provider := Begin |}
      (set_db_faults [None; Some (mkError None "SQLITE_BUSY")]
         (handle production (get "/dev-login" None Begin) initial))))
  = [Json 500 "error" "Internal server error"].
Proof.
  apply (dashboard_for_logged_in_user production
           {| method := "GET"; path := "/dashboard"; sid_cookie := Some 2;
              accepts_json := true; accepts_html := false; provider := Begin |}
           (set_db_faults [None; Some (mkError None "SQLITE_BUSY")]
              (handle production (get "/dev-login" None Begin) initial))
           1 (mkUser 1 "dev-google-123" (Some "dev@example.com") (Some "Dev Tester")
                (Some "") 0)).
  - reflexivity.
  - reflexivity.
  - vm_compute. reflexivity.
  - vm_compute. reflexivity.
  - exact I.
Defined.

(** X18.  Serialise, then deserialise.  For a user that is a row of a
    table meeting its constraints, handing what [serializeUser] puts in
    the session to [deserializeUser] yields that user again when the
    database answers; table and session store are untouched and the trace
    gains the two SESSION lines. *)
Theorem serialize_then_deserialize (u : User) (s : State)
    (done : Error + option User -> Cont) :
  wf (db s) -> u ∈ rows (db s) -> db_answers s ->
  exists s',
    serializeUser u (fun r =>
      match r with
      | inl e => done (inl e)
      | inr ref => deserializeUser ref done
      end) s = done (inr (Some u)) s' /\
    db s' = db s /\ store s' = store s /\ session s' = session s /\
    events s' = events s ++ [Log SESSION "Saving user reference into session";
                             Log SESSION "Loading user from session"].
Proof.
  intros Hwf Hin Hdb. pose proof (findUnique_unique _ u Hwf Hin) as Hfind.
  destruct s as [d c fs st sf n sid sess us hp sd evs].
  unfold db_answers in Hdb. simpl in Hdb, Hfind, Hwf, Hin.
  unfold serializeUser, deserializeUser, prisma, then_, log, emit.
  cbn [db clock db_faults events set_events set_db_faults set_db store store_faults
       next_sid sessionID session user has_passport showDevLogin head tail].
  rewrite Hfind.
  destruct fs as [|[e|] rest]; [|done|]; simpl; eexists;
    (split; [reflexivity|]); simpl; rewrite <- app_assoc; done.
Qed.

Lemma serialize_then_deserialize_witness :
  exists s',
    serializeUser (mkUser 1 "g-1" None None None 0) (fun r =>
      match r with
      | inl e => fun s => s
      | inr ref => deserializeUser ref (fun _ s => s)
      end)
      (set_db {| rows := [mkUser 1 "g-1" None None None 0]; seq := 1 |} initial)
    = s' /\
    db s' = {| rows := [mkUser 1 "g-1" None None None 0]; seq := 1 |} /\
    store s' = ∅ /\ session s' = empty_session /\
    events s' = [] ++ [Log SESSION "Saving user reference into session";
                       Log SESSION "Loading user from session"].
Proof.
  apply (serialize_then_deserialize (mkUser 1 "g-1" None None None 0)
           (set_db {| rows := [mkUser 1 "g-1" None None None 0]; seq := 1 |} initial)
           (fun _ s => s)).
  - split; simpl; [apply NoDup_singleton|apply NoDup_singleton|apply NoDup_nil_2|].
    constructor; [simpl; lia|constructor].
  - apply list_elem_of_here.
  - exact I.
Defined.

End Journeys.

(** ** Proofs: configuration *)
Module ConfigFacts.
Import App Config.

Lemma strip_appended_slash (b : string) : strip_trailing_slash (b ++ "/") = b.
Proof.
  induction b as [|c b IH]; [reflexivity|].
  simpl. destruct b as [|c' b']; [reflexivity|].
  simpl in IH |- *. by rewrite IH.
Qed.

Lemma strip_without_slash (b : string) :
  ends_with_slash b = false -> strip_trailing_slash b = b.
Proof.
  induction b as [|c b IH]; [reflexivity|].
  simpl. destruct b as [|c' b'].
  - intros H. by rewrite H.
  - intros H. by rewrite IH.
Qed.

Lemma env_or_nonempty (v fallback : string) :
  v <> "" -> env_or (Some v) fallback = v.
Proof. intros H. unfold env_or. by rewrite bool_decide_eq_false_2. Qed.

(** X19.  The callback URL handed to the strategy does not depend on one
    trailing slash of [BASE_URL]: for a base [b], setting [BASE_URL] to
    [b] followed by a slash gives [b/auth/google/callback], and so does
    setting it to [b] itself when [b] is not empty and does not end in a
    slash.  Exactly one slash is dropped: a base that ends in two keeps
    one. *)
Theorem callback_url_ignores_one_trailing_slash (env : Env) (b : string) :
  (BASE_URL env = Some (b ++ "/") -> callbackURL env = b ++ "/auth/google/callback") /\
  (BASE_URL env = Some b -> b <> "" -> ends_with_slash b = false ->
   callbackURL env = b ++ "/auth/google/callback").
Proof.
  unfold callbackURL, base_url. split.
  - intros ->. rewrite env_or_nonempty; [by rewrite strip_appended_slash|].
    by destruct b.
  - intros -> Hne Hs. rewrite env_or_nonempty by done. by rewrite strip_without_slash.
Qed.

Lemma callback_url_ignores_one_trailing_slash_witness :
  callbackURL (mkEnv None None (Some "https://app.example.com/") None None None None)
  = "https://app.example.com/auth/google/callback" /\
  callbackURL (mkEnv None None (Some "https://app.example.com") None None None None)
  = "https://app.example.com/auth/google/callback".
Proof.
  split.
  - apply (proj1 (callback_url_ignores_one_trailing_slash
                    (mkEnv None None (Some "https://app.example.com/") None None None None)
                    "https://app.example.com")).
    reflexivity.
  - apply (proj2 (callback_url_ignores_one_trailing_slash
                    (mkEnv None None (Some "https://app.example.com") None None None None)
                    "https://app.example.com")); [reflexivity|discriminate|reflexivity].
Defined.

(** X20.  The session secret is never empty: it is [SESSION_SECRET] when
    that is set to a non-empty string, and the built-in fallback when it
    is unset or empty. *)
Theorem session_secret_is_never_empty (env : Env) :
  secret (session_options env) <> "" /\
  (forall v, SESSION_SECRET env = Some v -> v <> "" -> secret (session_options env) = v) /\
  (SESSION_SECRET env = None \/ SESSION_SECRET env = Some "" ->
   secret (session_options env) = "set_the_code_on_fire_and_watch_it_burn").
Proof.
  unfold session_options, env_or. simpl. split; [|split].
  - destruct (SESSION_SECRET env) as [v|]; [|discriminate].
    case_bool_decide; [discriminate|done].
  - intros v -> Hv. by rewrite bool_decide_eq_false_2.
  - intros [-> | ->]; reflexivity.
Qed.

End ConfigFacts.
